(** * FastScapecc mesh-deformation plugin: surface coupling engine

    Shallow embedding of [source/mesh_deformation/fastscapecc.cc]
    (namespace [aspect::MeshDeformation], class [FastScapecc<dim>]) and
    the properties of its coupling step.

    Conventions of the embedding.
    - A finite C++ [double] is an exact rational ([Q]) and arithmetic on
      doubles is taken without rounding.  Where the source divides by a
      number that can be zero the quotient is an [xdouble]: a finite double,
      an infinity or NaN.  Underflow is represented where it decides whether
      a loop ends (lines 195-199).  [std::numeric_limits<double>::max()] is
      the rational it denotes.
    - An [unsigned int] is a [Z] reduced modulo [2^32] where the source
      computes with it; a conversion of a [double] to [int] or to
      [unsigned int] truncates toward zero and is undefined when the
      truncated number is not a value of the type.
    - The members of the class are declared in [fastscapecc.h], which is not
      among the sources.  The integer type of [nx], [ny] and [array_size]
      is a parameter ([member_int]).  The refinement levels are integers;
      what is proved of them is proved for levels that are not negative,
      where a signed and an unsigned member agree.
    - The template parameter [dim] is 3: the coupling routine reads the
      components 0, 1 and 2 of every point.
    - Routines of deal.II, HEALPix, fastscapelib and MPI are not part of
      the file; they are the fields of the class [Libraries], or small
      models that say so.
    - A call that does not return normally (an exception, or behaviour the
      language leaves undefined) is an explicit outcome. *)

From Stdlib Require Import ZArith QArith Qround Qpower Lia Lqa List Sorted.
From stdpp Require Import base list gmap strings.

Open Scope Z_scope.

(** ** Numbers *)

Abbreviation double := Q.

(** [std::numeric_limits<double>::max()], that is (2 - 2^-52) * 2^1023. *)
Definition DBL_MAX : double := inject_Z ((2 ^ 53 - 1) * 2 ^ 971).

Definition UINT_MODULUS : Z := 2 ^ 32.
Definition INT_MAX : Z := 2 ^ 31 - 1.
Definition INT_MIN : Z := - 2 ^ 31.

(** Arithmetic on [unsigned int] is modulo 2^32. *)
Definition wrap_uint (z : Z) : Z := z mod UINT_MODULUS.

(** [static_cast<double>(i)] for an integer [i]. *)
Definition double_of_int (i : Z) : double := inject_Z i.

(** [static_cast<int>(x)]: truncation toward zero; no value when the
    truncated number is not an [int]. *)
Definition trunc (x : double) : Z := Z.quot (Qnum x) (Zpos (Qden x)).

Definition static_cast_int (x : double) : option Z :=
  let z := trunc x in
  if decide (INT_MIN <= z <= INT_MAX) then Some z else None.

(** [static_cast<unsigned int>(x)]. *)
Definition static_cast_uint (x : double) : option Z :=
  let z := trunc x in
  if decide (0 <= z < UINT_MODULUS) then Some z else None.

(** A [double] that may not be finite. *)
Inductive xdouble : Type :=
  | Finite (x : double)
  | PlusInfinity
  | MinusInfinity
  | NotANumber.

(** [x / y] where [y] is the conversion of an integer, so that a zero [y]
    is the positive zero. *)
Definition divide (x y : double) : xdouble :=
  if Qeq_bool y 0
  then match (x ?= 0)%Q with
       | Gt => PlusInfinity
       | Lt => MinusInfinity
       | Eq => NotANumber
       end
  else Finite (x / y)%Q.

(** The least positive double, 2^-1074: half of it rounds to zero. *)
Definition DBL_TRUE_MIN : double := Qpower 2 (-1074).

(** [std::pow(2, e)] for an integer exponent. *)
Definition pow2 (e : Z) : double := Qpower 2 e.

(** [static_cast<int>(sqrt(x))]: the truncated square root.  For [0 <= x]
    the integer part of the real square root of [x] is the integer square
    root of the integer part of [x]. *)
Definition trunc_sqrt (x : double) : option Z :=
  let z := Z.sqrt (Qfloor x) in
  if decide (INT_MIN <= z <= INT_MAX) then Some z else None.

(** Element-wise arithmetic of xtensor expressions over arrays of one shape. *)
Definition xadd (a b : list double) : list double := zip_with Qplus a b.
Definition xsub (a b : list double) : list double := zip_with Qminus a b.
Definition xscale (c : double) (a : list double) : list double := Qmult c <$> a.
Definition xzeros (n : nat) : list double := replicate n 0%Q.

(** ** Sub-cycling: lines 191-199 *)

(** The [while] loop of lines 195-199 on a finite duration, as long as no
    halving underflows.  [fuel] bounds the number of tests of the loop
    condition. *)
Fixpoint halve_until (fuel : nat) (D : double) (iterations : Z) (dt : double)
  : option (Z * double) :=
  match fuel with
  | O => None
  | S fuel' =>
      if Qlt_le_dec D dt
      then halve_until fuel' D (wrap_uint (iterations * 2)) (dt * (1 # 2))%Q
      else Some (iterations, dt)
  end.

(** Lines 193-199: [T] is [aspect_timestep_in_years], [B] is
    [fastscape_steps_per_aspect_step], [D] is [maximum_fastscape_timestep].
    The result is [(fastscape_iterations, fastscape_timestep_in_years)];
    there is none, whatever the fuel, when the loop does not end.
    - The quotient of line 194 is not finite when the count is 0.  Plus
      infinity is above [D] and its half is plus infinity: the loop does
      not end.  The test of line 195 is false for minus infinity and for
      NaN: the loop is left at once.
    - A positive duration above [D = 0] is halved until it underflows: it
      comes to the least positive double or below, and the next half is
      zero, which ends the loop.
    - In every other case no halving underflows before the loop ends, or
      the loop does not end: a duration above a negative [D] stays above
      it, and one above a positive [D] is left at [D] or below while it is
      still above [D / 2]. *)
Definition sub_stepping (fuel : nat) (T : double) (B : Z) (D : double)
  : option (Z * xdouble) :=
  let fastscape_iterations := wrap_uint B in
  match divide T (double_of_int fastscape_iterations) with
  | Finite fastscape_timestep_in_years =>
      if Qeq_bool D 0 && negb (Qle_bool fastscape_timestep_in_years 0)
      then r ← halve_until fuel DBL_TRUE_MIN fastscape_iterations
                 fastscape_timestep_in_years;
           Some (wrap_uint (r.1 * 2), Finite 0%Q)
      else r ← halve_until fuel D fastscape_iterations
                 fastscape_timestep_in_years;
           Some (r.1, Finite r.2)
  | PlusInfinity => None
  | MinusInfinity => Some (fastscape_iterations, MinusInfinity)
  | NotANumber => Some (fastscape_iterations, NotANumber)
  end.

(** ** Geometry, points and the finite-element surface *)

(** [Point<3>] and [Tensor<1,3>]. *)
Record Point : Type := mkPoint { p0 : double; p1 : double; p2 : double }.

Definition Tensor : Type := Point.

(** The enumeration [GeometryType] is declared in [fastscapecc.h], which is
    not among the sources.  [initialize] names two of its values and has a
    branch for any other; [OtherGeometry] stands for every other value. *)
Inductive GeometryType : Type := Box | SphericalShell | OtherGeometry.

Global Instance GeometryType_eq_dec : EqDecision GeometryType.
Proof. solve_decision. Defined.

(** The geometry model of the host, as far as [initialize] looks at it:
    a box exposes its origin and its extents. *)
Inductive GeometryModel : Type :=
  | BoxModel (origin extents : Point)
  | SphericalShellModel
  | OtherModel.

(** [dynamic_cast<const GeometryModel::Box<dim>*>]: a null pointer unless
    the model is a box. *)
Definition as_box (g : GeometryModel) : option (Point * Point) :=
  match g with
  | BoxModel origin extents => Some (origin, extents)
  | _ => None
  end.

Definition boundary_id : Type := N.

(** A boundary face: its boundary indicator, and the quadrature points of
    the iterated trapezoid rule with the velocity solution at each, as a
    function of the number of copies of the rule. *)
Record Face : Type := mkFace {
  f_at_boundary : bool;
  f_boundary_id : boundary_id;
  f_values : Z -> list (Point * Tensor)
}.

Record Cell : Type := mkCell {
  c_locally_owned : bool;
  c_at_boundary : bool;
  c_faces : list Face
}.

(** ** Host simulator, as seen through [SimulatorAccess] *)

Record Simulator : Type := mkSimulator {
  geometry_model : GeometryModel;
  timestep_number : Z;
  timestep : double;                 (* get_timestep(), in seconds *)
  convert_output_to_years : bool;
  top_boundary : boundary_id;        (* id of the boundary named "top" *)
  active_cells : nat -> list Cell    (* the active cells as rank r sees them *)
}.

(** ** Parameter file *)

(** [ParameterHandler]: entries are read by the path of subsections entered
    and the entry name. *)
Record ParameterHandler : Type := mkPrm {
  prm_get : list string -> string -> string;
  prm_get_integer : list string -> string -> Z;
  prm_get_double : list string -> string -> double;
  prm_get_bool : list string -> string -> bool
}.

(** ** What the file takes from elsewhere *)

(** The routines, constants and declarations that are not in the file. *)
Class Libraries : Type := mkLibraries {
  (** [year_in_seconds] of [aspect/global.h], a positive constant. *)
  year_in_seconds : double;
  year_in_seconds_pos : (0 < year_in_seconds)%Q;
  (** The value that one of the integer members [nx], [ny] and
      [array_size], declared in [fastscapecc.h], holds when the integer [z]
      is computed for it: [z] itself where the type of the member has it,
      the wrapped number where an unsigned type does not, and no value
      where a signed type does not. *)
  member_int : Z -> option Z;
  (** [T_Healpix_Base<int>(nsides, RING, SET_NSIDE)], by [nsides]: the
      number of pixels [Npix()], where the object can be constructed and
      the number is an [int], and the pixel of a point, [vec2pix]. *)
  Npix : Z -> option nat;
  vec2pix : Z -> Point -> Z;
  (** [Point<dim>::norm()]. *)
  norm : Point -> double;
  (** fastscapelib: the flow graph over the HEALPix grid (by [nsides], the
      number of nodes, all of status zero, and the radius) with a single
      flow router, and the stream-power eroder attached to it. *)
  FlowGraph : Type;
  Eroder : Type;
  make_flow_graph : Z -> nat -> double -> FlowGraph;
  update_routes : FlowGraph -> list double -> FlowGraph;
  accumulate_source : FlowGraph -> double -> list double;
  accumulate : FlowGraph -> list double -> list double;
  make_spl_eroder : FlowGraph -> double -> double -> double -> double -> Eroder;
  erode : Eroder -> FlowGraph -> list double -> list double -> double -> list double
}.

(** ** The plugin object *)

Record FastScapecc : Type := mkFastScapecc {
  geometry_type : GeometryType;
  grid_extent : (double * double) * (double * double);
  repetitions : Z * Z * Z;
  nx : Z;
  ny : Z;
  dx : xdouble;
  dy : xdouble;
  x_extent : double;
  y_extent : double;
  array_size : Z;
  nsides : Z;
  end_time : double;
  inner_radius : double;
  outer_radius : double;
  opening_angle : double;
  fastscape_steps_per_aspect_step : Z;
  maximum_fastscape_timestep : double;
  additional_refinement_levels : Z;
  center_slice : bool;
  fs_seed : Z;
  maximum_surface_refinement_level : Z;
  surface_refinement_difference : Z;
  y_extent_2d : double;
  precision : double;
  noise_h : double;
  bottom : Z;
  right : Z;
  top : Z;
  left : Z;
  m : double;
  n : double;
  kfsed : double;
  kff : double;
  kdsed : double;
  kdd : double
}.

(** How a call ended. *)
Inductive Status : Type :=
  | Completed
  | Threw (msg : string)
  | UndefinedBehaviour.

Definition exc_geometry : string :=
  "FastScapecc plugin only supports Box or Spherical Shell geometries.".

(** The members written by the box branch of [initialize], lines 61-74;
    no object where an integer member has no value.  The spacings are
    quotients by the repetitions, not finite for zero repetitions. *)
Definition set_box_grid `{lib : Libraries} (s : FastScapecc)
    (origin extents : Point) : option FastScapecc :=
  let ge0 := (p0 origin, p0 extents) in
  let ge1 := (p1 origin, p1 extents) in
  let rep0 := fst (fst (repetitions s)) in
  let rep1 := snd (fst (repetitions s)) in
  nx' ← member_int (rep0 + 1);
  ny' ← member_int (rep1 + 1);
  array_size' ← member_int (nx' * ny');
  Some
  {| geometry_type := geometry_type s;
     grid_extent := (ge0, ge1);
     repetitions := repetitions s;
     nx := nx';
     ny := ny';
     dx := divide (snd ge0) (double_of_int rep0);
     dy := divide (snd ge1) (double_of_int rep1);
     x_extent := snd ge0;
     y_extent := snd ge1;
     array_size := array_size';
     nsides := nsides s;
     end_time := end_time s;
     inner_radius := inner_radius s;
     outer_radius := outer_radius s;
     opening_angle := opening_angle s;
     fastscape_steps_per_aspect_step := fastscape_steps_per_aspect_step s;
     maximum_fastscape_timestep := maximum_fastscape_timestep s;
     additional_refinement_levels := additional_refinement_levels s;
     center_slice := center_slice s;
     fs_seed := fs_seed s;
     maximum_surface_refinement_level := maximum_surface_refinement_level s;
     surface_refinement_difference := surface_refinement_difference s;
     y_extent_2d := y_extent_2d s;
     precision := precision s;
     noise_h := noise_h s;
     bottom := bottom s;
     right := right s;
     top := top s;
     left := left s;
     m := m s;
     n := n s;
     kfsed := kfsed s;
     kff := kff s;
     kdsed := kdsed s;
     kdd := kdd s |}.

(** The member written by the spherical branch, line 80. *)
Definition set_nsides (s : FastScapecc) (v : Z) : FastScapecc :=
  {| geometry_type := geometry_type s;
     grid_extent := grid_extent s;
     repetitions := repetitions s;
     nx := nx s;
     ny := ny s;
     dx := dx s;
     dy := dy s;
     x_extent := x_extent s;
     y_extent := y_extent s;
     array_size := array_size s;
     nsides := v;
     end_time := end_time s;
     inner_radius := inner_radius s;
     outer_radius := outer_radius s;
     opening_angle := opening_angle s;
     fastscape_steps_per_aspect_step := fastscape_steps_per_aspect_step s;
     maximum_fastscape_timestep := maximum_fastscape_timestep s;
     additional_refinement_levels := additional_refinement_levels s;
     center_slice := center_slice s;
     fs_seed := fs_seed s;
     maximum_surface_refinement_level := maximum_surface_refinement_level s;
     surface_refinement_difference := surface_refinement_difference s;
     y_extent_2d := y_extent_2d s;
     precision := precision s;
     noise_h := noise_h s;
     bottom := bottom s;
     right := right s;
     top := top s;
     left := left s;
     m := m s;
     n := n s;
     kfsed := kfsed s;
     kff := kff s;
     kdsed := kdsed s;
     kdd := kdd s |}.

(** Line 80: the argument of [sqrt]. *)
Definition nsides_radicand (s : FastScapecc) : double :=
  (48 * pow2 ((additional_refinement_levels s
               + surface_refinement_difference s
               + maximum_surface_refinement_level s) * 2) / 12)%Q.

(** [FastScapecc<dim>::initialize], lines 49-86: the object after the call
    and how the call ended. *)
Definition initialize `{lib : Libraries} (sim : Simulator) (s : FastScapecc)
  : FastScapecc * Status :=
  let box_geometry := as_box (geometry_model sim) in
  match geometry_type s with
  | Box =>
      match box_geometry with
      | Some (origin, extents) =>
          match set_box_grid s origin extents with
          | Some s' => (s', Completed)
          | None => (s, UndefinedBehaviour)
          end
      | None => (s, UndefinedBehaviour)
      end
  | SphericalShell =>
      match trunc_sqrt (nsides_radicand s) with
      | Some v => (set_nsides s v, Completed)
      | None => (s, UndefinedBehaviour)
      end
  | OtherGeometry => (s, Threw exc_geometry)
  end.

(** ** Results of calls that may not return *)

Inductive Result (A : Type) : Type :=
  | Returned (a : A)
  | NoReturn          (* exception or undefined behaviour *)
  | OutOfFuel.        (* the bound on loop tests of the model was reached *)

Arguments Returned {A} a.
Arguments NoReturn {A}.
Arguments OutOfFuel {A}.

Global Instance Result_bind : MBind Result := fun A B k r =>
  match r with
  | Returned a => k a
  | NoReturn => NoReturn
  | OutOfFuel => OutOfFuel
  end.

Definition defined {A : Type} (o : option A) : Result A :=
  match o with Some a => Returned a | None => NoReturn end.

Definition fuelled {A : Type} (o : option A) : Result A :=
  match o with Some a => Returned a | None => OutOfFuel end.

(** ** Samples and global fields *)

(** One entry of [temporary_variables]: the three vectors are filled and
    resized together, so one list of triples stands for them.  The pixel
    index travels as a [double]. *)
Record Sample : Type := mkSample {
  s_height : double;      (* temporary_variables[0] *)
  s_index : double;       (* temporary_variables[1] *)
  s_velocity : double     (* temporary_variables[2] *)
}.

(** [v[i] = x] on a [std::vector]: undefined outside the vector. *)
Definition vector_set (v : list double) (i : Z) (x : double) : option (list double) :=
  if decide (0 <= i < Z.of_nat (length v)) then Some (<[Z.to_nat i := x]> v) else None.

(** [v[i]] on a [std::vector]. *)
Definition vector_get (v : list double) (i : Z) : option double :=
  if decide (0 <= i) then v !! Z.to_nat i else None.

(** Body of the loops at lines 156-161 and 178-183. *)
Definition write_sample (hv : list double * list double) (smp : Sample)
  : option (list double * list double) :=
  index ← static_cast_int (s_index smp);
  h' ← vector_set hv.1 index (s_height smp);
  vz' ← vector_set hv.2 index (s_velocity smp);
  Some (h', vz').

Fixpoint write_samples (hv : list double * list double) (samples : list Sample)
  : option (list double * list double) :=
  match samples with
  | [] => Some hv
  | smp :: rest => hv' ← write_sample hv smp; write_samples hv' rest
  end.

(** Lines 156-184: the coordinator writes its own samples, then those of
    the ranks 1, 2, ... in this order. *)
Fixpoint write_ranks (hv : list double * list double) (per_rank : list (list Sample))
  : option (list double * list double) :=
  match per_rank with
  | [] => Some hv
  | samples :: rest => hv' ← write_samples hv samples; write_ranks hv' rest
  end.

(** The index of a sample is a cell of a field of [size] cells. *)
Definition sample_in_range (size : nat) (smp : Sample) : Prop :=
  exists index : Z,
    static_cast_int (s_index smp) = Some index /\ 0 <= index < Z.of_nat size.

(** A sample writes cell [i]. *)
Definition writes_cell (i : nat) (smp : Sample) : Prop :=
  static_cast_int (s_index smp) = Some (Z.of_nat i).

(** Lines 152-184: [h] starts at the largest double, [vz] at zero. *)
Definition gather (size : nat) (per_rank : list (list Sample))
  : option (list double * list double) :=
  write_ranks (replicate size DBL_MAX, xzeros size) per_rank.

(** ** Buffers and iterators of the coordinator *)

(** The three vectors the xtensor adaptors alias: [elevation] adapts [h],
    [uplift_rate] adapts [vz], [elevation_old] adapts [h_old]. *)
Inductive Buffer : Type := Buf_h | Buf_vz | Buf_h_old.

Global Instance Buffer_eq_dec : EqDecision Buffer.
Proof. solve_decision. Defined.

Record Store : Type := mkStore {
  st_h : list double;
  st_vz : list double;
  st_h_old : list double
}.

Definition buffer_of (st : Store) (b : Buffer) : list double :=
  match b with
  | Buf_h => st_h st
  | Buf_vz => st_vz st
  | Buf_h_old => st_h_old st
  end.

(** An iterator is a position in one buffer. *)
Record Iterator : Type := mkIterator { it_buffer : Buffer; it_offset : nat }.

Definition xbegin (b : Buffer) : Iterator := mkIterator b 0.
Definition xend (st : Store) (b : Buffer) : Iterator :=
  mkIterator b (length (buffer_of st b)).

(** [std::vector<double>(first, last)]: the elements of the range; a range
    is a pair of iterators into one container, and the construction has no
    defined result for any other pair. *)
Definition vector_from_range (st : Store) (first last : Iterator)
  : option (list double) :=
  if decide (it_buffer first = it_buffer last)
  then Some (take (it_offset last - it_offset first)
                  (drop (it_offset first) (buffer_of st (it_buffer first))))
  else None.

(** ** Boundary degrees of freedom and constraints *)

(** A degree of freedom of the mesh-deformation handler located on the
    boundary: its global index, the boundary indicators of the faces it
    lies on, its support point and its vector component. *)
Record BoundaryDoF : Type := mkDoF {
  dof_index : N;
  dof_boundaries : list boundary_id;
  dof_point : Point;
  dof_component : nat
}.

Definition DoFHandler : Type := list BoundaryDoF.

(** [AffineConstraints<double>]: constrained degrees of freedom with their
    inhomogeneity. *)
Abbreviation AffineConstraints := (gmap N double).

(** A model of deal.II's [VectorTools::interpolate_boundary_values] with a
    constraints object: every degree of freedom on a face with indicator
    [b] that is not constrained yet is constrained to the value of the
    function at its support point. *)
Definition constrain_dof (b : boundary_id) (f : Point -> nat -> option double)
    (acc : option AffineConstraints) (d : BoundaryDoF) : option AffineConstraints :=
  cs ← acc;
  if decide (b ∈ dof_boundaries d) then
    match cs !! dof_index d with
    | Some _ => Some cs
    | None => v ← f (dof_point d) (dof_component d); Some (<[dof_index d := v]> cs)
    end
  else Some cs.

Definition interpolate_boundary_values (dh : DoFHandler) (b : boundary_id)
    (f : Point -> nat -> option double) (cs : AffineConstraints)
  : option AffineConstraints :=
  foldl (constrain_dof b f) (Some cs) dh.


(** [*boundary_ids.begin()]: undefined for the empty set. *)
Definition set_begin (ids : list boundary_id) : option boundary_id := head ids.

(** What a call does to the outside, in order.  A message carries one of
    the five vectors of [temporary_variables]. *)
Inductive Event : Type :=
  | EvSample                             (* reads the finite-element solution *)
  | EvProbe (source : nat)               (* MPI_Probe *)
  | EvRecv (source : nat) (vector : nat) (* MPI_Recv into a vector *)
  | EvSsend (vector : nat) (count : nat) (* MPI_Ssend of [count] doubles to rank 0 *)
  | EvBcast                              (* MPI_Bcast *)
  | EvInterpolate (b : boundary_id).

(** The outside effects of a call and its result. *)
Record Run (A : Type) : Type := mkRun { trace : list Event; result : Result A }.

Arguments mkRun {A} trace result.
Arguments trace {A} r.
Arguments result {A} r.

(** * The plugin, over the routines it calls *)

Section Coupling.

Context `{lib : Libraries}.

(** ** [parse_parameters], lines 435-557 *)

Definition geometry_section : list string := ["Geometry model"].
Definition fastscapecc_section : list string := ["Mesh deformation"; "Fastscapecc"].
Definition boundary_section : list string :=
["Mesh deformation"; "Fastscapecc"; "Boundary conditions"].
Definition erosional_section : list string :=
["Mesh deformation"; "Fastscapecc"; "Erosional parameters"].

Definition parse_parameters (sim : Simulator) (prm : ParameterHandler)
  (s : FastScapecc) : FastScapecc :=
let model_name := prm_get prm geometry_section "Model name" in
let is_box := bool_decide (model_name = "box") in
let is_shell := bool_decide (model_name = "spherical shell") in
let end_time0 := prm_get_double prm [] "End time" in
let max_dt := prm_get_double prm fastscapecc_section "Maximum timestep" in
let shell_entry (name : string) (old : double) : double :=
  if is_box then old
  else if is_shell
       then prm_get_double prm ["Geometry model"; "Spherical shell"] name
       else old in
{| geometry_type :=
     if is_box then Box else if is_shell then SphericalShell else geometry_type s;
   grid_extent := grid_extent s;
   repetitions :=
     if is_box
     then (prm_get_integer prm ["Geometry model"; "Box"] "X repetitions",
           prm_get_integer prm ["Geometry model"; "Box"] "Y repetitions",
           prm_get_integer prm ["Geometry model"; "Box"] "Z repetitions")
     else repetitions s;
   nx := nx s;
   ny := ny s;
   dx := dx s;
   dy := dy s;
   x_extent := x_extent s;
   y_extent := y_extent s;
   array_size := array_size s;
   nsides := nsides s;
   end_time :=
     if prm_get_bool prm [] "Use years in output instead of seconds"
     then (end_time0 * year_in_seconds)%Q else end_time0;
   inner_radius := shell_entry "Inner radius" (inner_radius s);
   outer_radius := shell_entry "Outer radius" (outer_radius s);
   opening_angle := shell_entry "Opening angle" (opening_angle s);
   fastscape_steps_per_aspect_step :=
     prm_get_integer prm fastscapecc_section "Number of steps";
   maximum_fastscape_timestep :=
     if convert_output_to_years sim then max_dt
     else (max_dt / year_in_seconds)%Q;
   additional_refinement_levels :=
     prm_get_integer prm fastscapecc_section "Additional fastscape refinement levels";
   center_slice := prm_get_bool prm fastscapecc_section "Use center slice for 2d";
   fs_seed := prm_get_integer prm fastscapecc_section "Fastscape seed";
   maximum_surface_refinement_level :=
     prm_get_integer prm fastscapecc_section "Maximum surface refinement level";
   surface_refinement_difference :=
     prm_get_integer prm fastscapecc_section "Surface refinement difference";
   y_extent_2d := prm_get_double prm fastscapecc_section "Y extent in 2d";
   precision := prm_get_double prm fastscapecc_section "Precision";
   noise_h := prm_get_double prm fastscapecc_section "Initial noise magnitude";
   bottom := prm_get_integer prm boundary_section "Front";
   right := prm_get_integer prm boundary_section "Right";
   top := prm_get_integer prm boundary_section "Back";
   left := prm_get_integer prm boundary_section "Left";
   m := prm_get_double prm erosional_section "Drainage area exponent";
   n := prm_get_double prm erosional_section "Slope exponent";
   kfsed := prm_get_double prm erosional_section "Sediment river incision rate";
   kff := prm_get_double prm erosional_section "Bedrock river incision rate";
   kdsed := prm_get_double prm erosional_section "Sediment diffusivity";
   kdd := prm_get_double prm erosional_section "Bedrock diffusivity" |}.

(** ** Boundary sampler, lines 101-144 *)

(** Line 106: the number of copies of the trapezoid rule, converted to
  [unsigned int]. *)
Definition quadrature_copies (s : FastScapecc) : option Z :=
static_cast_uint
  (pow2 (additional_refinement_levels s + surface_refinement_difference s)).

(** Lines 131-142: one quadrature point of a face on the top boundary. *)
Definition sample_corner (s : FastScapecc) (vertex : Point) (vel : Tensor) : Sample :=
let index := vec2pix (nsides s) vertex in
let radial_velocity :=
  ((p0 vertex * p0 vel + p1 vertex * p1 vel + p2 vertex * p2 vel)
   / norm vertex)%Q in
{| s_height := (p2 vertex - outer_radius s)%Q;
   s_index := double_of_int index;
   s_velocity := (radial_velocity * year_in_seconds)%Q |}.

(** Lines 119-144, for one face; [copies] is the number of copies of the
  rule [face_corners]. *)
Definition sample_face (s : FastScapecc) (relevant_boundary : boundary_id)
  (copies : Z) (face : Face) : list Sample :=
if f_at_boundary face then
  if decide (f_boundary_id face ≠ relevant_boundary) then []
  else (fun pv => sample_corner s pv.1 pv.2) <$> f_values face copies
else [].

(** Lines 117-144: the samples of one rank, in the order pushed. *)
Definition boundary_samples (s : FastScapecc) (sim : Simulator) (copies : Z)
  (rank : nat) : list Sample :=
cell ← active_cells sim rank;
if c_locally_owned cell && c_at_boundary cell
then face ← c_faces cell; sample_face s (top_boundary sim) copies face
else [].

(** ** Landscape evolution, lines 201-228 *)

Record Landscape : Type := mkLandscape {
ls_elevation : list double;        (* [h], through the adaptor [elevation] *)
ls_flow_graph : FlowGraph;
ls_drainage_area : list double;
ls_sediment_flux : list double
}.

(** Body of the loop, lines 222-227. *)
Definition sub_step (spl_eroder : Eroder) (dt : double) (uplift_rate : list double)
  (ls : Landscape) : Landscape :=
let uplifted_elevation := xadd (ls_elevation ls) (xscale dt uplift_rate) in
let flow_graph := update_routes (ls_flow_graph ls) uplifted_elevation in
let drainage_area := accumulate_source flow_graph 1%Q in
let spl_erosion := erode spl_eroder flow_graph uplifted_elevation drainage_area dt in
let sediment_flux := accumulate flow_graph spl_erosion in
{| ls_elevation := xsub uplifted_elevation spl_erosion;
   ls_flow_graph := flow_graph;
   ls_drainage_area := drainage_area;
   ls_sediment_flux := sediment_flux |}.

(** The loop of line 220. *)
Fixpoint sub_steps (count : nat) (spl_eroder : Eroder) (dt : double)
  (uplift_rate : list double) (ls : Landscape) : Landscape :=
match count with
| O => ls
| S count' =>
    sub_steps count' spl_eroder dt uplift_rate
              (sub_step spl_eroder dt uplift_rate ls)
end.

(** The constants of lines 202 and 209. *)
Definition sphere_radius : double := 6371000%Q.
Definition spl_k_coef : double := (2 # 10000)%Q.
Definition spl_area_exp : double := (4 # 10)%Q.
Definition spl_slope_exp : double := 1%Q.
Definition spl_tolerance : double := (1 # 100000)%Q.

(** Lines 191-228: from the gathered fields to the store after the last
  sub-step.  [h_old] is the copy of [h] made at lines 186-189. *)
Definition evolve (fuel : nat) (s : FastScapecc) (sim : Simulator)
  (h vz : list double) : Result Store :=
let size := length h in
let h_old := h in
let aspect_timestep_in_years := (timestep sim / year_in_seconds)%Q in
steps ← fuelled (sub_stepping fuel aspect_timestep_in_years
                   (fastscape_steps_per_aspect_step s)
                   (maximum_fastscape_timestep s));
let flow_graph := make_flow_graph (nsides s) size sphere_radius in
let spl_eroder :=
  make_spl_eroder flow_graph spl_k_coef spl_area_exp spl_slope_exp spl_tolerance in
let start :=
  {| ls_elevation := h;
     ls_flow_graph := flow_graph;
     ls_drainage_area := xzeros size;
     ls_sediment_flux := xzeros size |} in
let ls :=
  match steps.2 with
  | Finite fastscape_timestep_in_years =>
      sub_steps (Z.to_nat steps.1) spl_eroder fastscape_timestep_in_years vz start
  | _ => start               (* the count is 0: the loop has no pass *)
  end in
Returned {| st_h := ls_elevation ls; st_vz := vz; st_h_old := h_old |}.

(** Lines 230-236: the velocity from the two elevation fields. *)
Definition velocity_entry (sim : Simulator) (elevation_std elevation_old_std : list double)
  (i : nat) : option double :=
a ← elevation_std !! i;
b ← elevation_old_std !! i;
Some ((a - b) / (timestep sim / year_in_seconds))%Q.

Definition derive_velocity (sim : Simulator) (size : nat) (st : Store)
: Result (list double) :=
elevation_std ← defined (vector_from_range st (xbegin Buf_h) (xend st Buf_h));
elevation_old_std ←
  defined (vector_from_range st (xbegin Buf_h_old) (xend st Buf_h));
defined (mapM (velocity_entry sim elevation_std elevation_old_std) (seq 0 size)).

(** Lines 146-237 on rank 0, given the samples of every rank. *)
Definition coordinator (fuel : nat) (s : FastScapecc) (sim : Simulator)
  (per_rank : list (list Sample)) : Result (list double) :=
size ← defined (Npix (nsides s));
hv ← defined (gather size per_rank);
st ← evolve fuel s sim hv.1 hv.2;
derive_velocity sim size st.

(** ** Boundary interpolator, lines 247-261 *)

Definition healpix_velocity_function (s : FastScapecc) (V : list double)
  (p : Point) : option double :=
vector_get V (vec2pix (nsides s) p).

(** [VectorFunctionFromScalarFunctionObject (f, dim - 1, dim)]. *)
Definition vector_function_object (f : Point -> option double)
  (p : Point) (component : nat) : option double :=
if decide (component = 2%nat) then f p else Some 0%Q.

Definition impose_constraints (s : FastScapecc) (V : list double) (dh : DoFHandler)
  (cs : AffineConstraints) (boundary_ids : list boundary_id)
: Result AffineConstraints :=
b ← defined (set_begin boundary_ids);
defined (interpolate_boundary_values dh b
           (vector_function_object (healpix_velocity_function s V)) cs).

(** ** [compute_velocity_constraints_on_boundary], lines 88-262 *)

(** The samples in the order the coordinator writes them: its own, then
  those received from the ranks 1 to n-1. *)
Definition gathered_samples (s : FastScapecc) (sim : Simulator) (copies : Z)
  (n_processes : nat) : list (list Sample) :=
boundary_samples s sim copies 0
  :: (boundary_samples s sim copies <$> seq 1 (n_processes - 1)).

(** The lengths of the five ([dim + 2]) vectors of [temporary_variables] on
  a rank that pushed [count] samples: lines 140-142 fill the first three,
  nothing fills the other two. *)
Definition vector_lengths (count : nat) : list nat :=
[count; count; count; 0%nat; 0%nat].

(** Lines 241-242 from vector [i] on: every vector is sent with
  [temporary_variables[1].size()] elements.  A send of more elements than
  its vector holds reads outside the vector: it is the last event, and
  the flag says that the calls are not all defined.  A send of no element
  reads nothing, also from an empty vector. *)
Fixpoint sends (count : nat) (i : nat) (lengths : list nat) : list Event * bool :=
match lengths with
| [] => ([], true)
| len :: rest =>
    if decide (count <= len)%nat
    then let r := sends count (S i) rest in (EvSsend i count :: r.1, r.2)
    else ([EvSsend i count], false)
end.

(** Lines 165-177 for the source [p], which pushed [count] samples: the
  probe, then the receives that match the sends of [p]. *)
Definition receives_from (p : nat) (count : nat) : list Event * bool :=
let r := sends count 0 (vector_lengths count) in
(EvProbe p :: (EvRecv p <$> seq 0 (length r.1)), r.2).

(** The loop of line 163 from the source [p] on. *)
Fixpoint receives (p : nat) (counts : list nat) : list Event * bool :=
match counts with
| [] => ([], true)
| count :: rest =>
    let r := receives_from p count in
    if r.2
    then let r' := receives (S p) rest in (r.1 ++ r'.1, r'.2)
    else (r.1, false)
end.

(** The number of samples of each of the ranks 1 to n-1. *)
Definition sample_counts (s : FastScapecc) (sim : Simulator) (copies : Z)
  (n_processes : nat) : list nat :=
(fun p => length (boundary_samples s sim copies p)) <$> seq 1 (n_processes - 1).

(** The messages of lines 163-177 on rank 0 and of lines 241-242 on every
  other rank, up to the first one that is not defined, and whether all
  are defined. *)
Definition gather_events (s : FastScapecc) (sim : Simulator) (copies : Z)
  (rank n_processes : nat) : list Event * bool :=
if decide (rank = 0%nat)
then receives 1 (sample_counts s sim copies n_processes)
else let count := length (boundary_samples s sim copies rank) in
     sends count 0 (vector_lengths count).

(** The call on process [rank] of [n_processes], with the constraints
  object it is given.  The call goes on after the gathering when the
  messages of this rank and those of rank 0, which sends the velocities
  at line 237, are all defined. *)
Definition compute_velocity_constraints_on_boundary (fuel : nat) (s : FastScapecc)
  (sim : Simulator) (rank n_processes : nat) (dh : DoFHandler)
  (cs : AffineConstraints) (boundary_ids : list boundary_id)
: Run AffineConstraints :=
if decide (timestep_number sim = 0) then mkRun [] (Returned cs)
else
  match quadrature_copies s, Npix (nsides s) with
  | Some copies, Some _ =>
      let messages := gather_events s sim copies rank n_processes in
      let before := EvSample :: messages.1 in
      if messages.2 && (gather_events s sim copies 0 n_processes).2
      then
        match coordinator fuel s sim (gathered_samples s sim copies n_processes) with
        | Returned V =>
            match set_begin boundary_ids with
            | Some b =>
                mkRun (before ++ [EvBcast; EvInterpolate b])
                      (impose_constraints s V dh cs boundary_ids)
            | None => mkRun (before ++ [EvBcast]) NoReturn
            end
        | NoReturn => mkRun before NoReturn
        | OutOfFuel => mkRun before OutOfFuel
        end
      else mkRun before NoReturn
  | _, _ => mkRun [] NoReturn   (* line 106 or line 115 has no defined result *)
  end.

(** ** The plugin object without its erosional parameters *)

Definition clear_erosional (s : FastScapecc) : FastScapecc :=
{| geometry_type := geometry_type s;
   grid_extent := grid_extent s;
   repetitions := repetitions s;
   nx := nx s;
   ny := ny s;
   dx := dx s;
   dy := dy s;
   x_extent := x_extent s;
   y_extent := y_extent s;
   array_size := array_size s;
   nsides := nsides s;
   end_time := end_time s;
   inner_radius := inner_radius s;
   outer_radius := outer_radius s;
   opening_angle := opening_angle s;
   fastscape_steps_per_aspect_step := fastscape_steps_per_aspect_step s;
   maximum_fastscape_timestep := maximum_fastscape_timestep s;
   additional_refinement_levels := additional_refinement_levels s;
   center_slice := center_slice s;
   fs_seed := fs_seed s;
   maximum_surface_refinement_level := maximum_surface_refinement_level s;
   surface_refinement_difference := surface_refinement_difference s;
   y_extent_2d := y_extent_2d s;
   precision := precision s;
   noise_h := noise_h s;
   bottom := bottom s;
   right := right s;
   top := top s;
   left := left s;
   m := 0%Q;
   n := 0%Q;
   kfsed := 0%Q;
   kff := 0%Q;
   kdsed := 0%Q;
   kdd := 0%Q |}.

(** Two parameter files with the same entries outside the subsection
  "Erosional parameters". *)
Definition same_outside_erosional (prm prm' : ParameterHandler) : Prop :=
forall (path : list string) (entry : string),
  path <> erosional_section ->
  prm_get prm path entry = prm_get prm' path entry /\
  prm_get_integer prm path entry = prm_get_integer prm' path entry /\
  prm_get_double prm path entry = prm_get_double prm' path entry /\
  prm_get_bool prm path entry = prm_get_bool prm' path entry.

(** Setup followed by one coupling step, from the parameter file. *)
Definition configured_step (fuel : nat) (prm : ParameterHandler) (s0 : FastScapecc)
  (sim : Simulator) (rank n_processes : nat) (dh : DoFHandler)
  (cs : AffineConstraints) (boundary_ids : list boundary_id)
: Status * option (Run AffineConstraints) :=
match initialize sim (parse_parameters sim prm s0) with
| (s, Completed) =>
    (Completed,
     Some (compute_velocity_constraints_on_boundary fuel s sim rank n_processes
             dh cs boundary_ids))
| (_, status) => (status, None)
end.

End Coupling.

(** * Concrete routines and data for the examples *)

(** The square root of a rational that has a rational square root. *)
Definition rational_sqrt (q : Q) : Q :=
  let r := Qred q in Z.sqrt (Qnum r) # Pos.sqrt (Qden r).

(** The Euclidean norm, exact wherever it is rational. *)
Definition euclidean_norm (p : Point) : double :=
  rational_sqrt (p0 p * p0 p + p1 p * p1 p + p2 p * p2 p)%Q.

(** The number of pixels of a HEALPix grid, [12 * nside^2], for a positive
    [nside] and as far as it is an [int]. *)
Definition healpix_npix (nside : Z) : option nat :=
  if decide (0 < nside /\ 12 * nside * nside <= INT_MAX)
  then Some (Z.to_nat (12 * nside * nside)) else None.

(** The members as [int]. *)
Definition int_member (z : Z) : option Z :=
  if decide (INT_MIN <= z <= INT_MAX) then Some z else None.

(** A landscape library whose eroder removes nothing and whose flow graph
    carries no data; every point is put in pixel 0, as HEALPix does with
    the north pole.  [year_in_seconds] is 60 * 60 * 24 * 365.2425. *)
Definition still_libraries : Libraries :=
  {| year_in_seconds := 31556952%Q;
     year_in_seconds_pos := eq_refl;
     member_int := int_member;
     Npix := healpix_npix;
     vec2pix := fun _ _ => 0;
     norm := euclidean_norm;
     FlowGraph := unit;
     Eroder := unit;
     make_flow_graph := fun _ _ _ => tt;
     update_routes := fun g _ => g;
     accumulate_source := fun _ _ => [];
     accumulate := fun _ flux => flux;
     make_spl_eroder := fun _ _ _ _ _ => tt;
     erode := fun _ _ elevation _ _ => xzeros (length elevation) |}.

(** A plugin object before [parse_parameters]: every member zero. *)
Definition blank_plugin (g : GeometryType) : FastScapecc :=
  {| geometry_type := g;
     grid_extent := ((0, 0), (0, 0))%Q;
     repetitions := (0, 0, 0);
     nx := 0; ny := 0; dx := Finite 0%Q; dy := Finite 0%Q;
     x_extent := 0%Q; y_extent := 0%Q; array_size := 0;
     nsides := 0;
     end_time := 0%Q;
     inner_radius := 0%Q; outer_radius := 0%Q; opening_angle := 0%Q;
     fastscape_steps_per_aspect_step := 0;
     maximum_fastscape_timestep := 0%Q;
     additional_refinement_levels := 0;
     center_slice := false;
     fs_seed := 0;
     maximum_surface_refinement_level := 0;
     surface_refinement_difference := 0;
     y_extent_2d := 0%Q; precision := 0%Q; noise_h := 0%Q;
     bottom := 0; right := 0; top := 0; left := 0;
     m := 0%Q; n := 0%Q; kfsed := 0%Q; kff := 0%Q; kdsed := 0%Q; kdd := 0%Q |}.

(** The default entries of [declare_parameters] for the shell, with a
    given model name, a given number of additional refinement levels and
    given erosional parameters. *)
Definition default_prm (model : string) (additional : Z) (erosional : double)
  : ParameterHandler :=
  {| prm_get := fun _ entry =>
       if bool_decide (entry = "Model name") then model else ""%string;
     prm_get_integer := fun path entry =>
       if bool_decide (entry = "Number of steps") then 10
       else if bool_decide (entry = "Additional fastscape refinement levels")
            then additional
       else if bool_decide (entry = "Maximum surface refinement level") then 1
       else if bool_decide (entry = "Fastscape seed") then 1000
       else if bool_decide (path = ["Mesh deformation"; "Fastscapecc"; "Boundary conditions"])
            then 1
       else if bool_decide (path = ["Geometry model"; "Box"]) then 1
       else 0;
     prm_get_double := fun path entry =>
       if bool_decide (path = ["Mesh deformation"; "Fastscapecc"; "Erosional parameters"])
       then erosional
       else if bool_decide (entry = "Maximum timestep") then 10000%Q
       else if bool_decide (entry = "Inner radius") then 3481000%Q
       else if bool_decide (entry = "Outer radius") then 6336000%Q
       else if bool_decide (entry = "Opening angle") then 360%Q
       else 0%Q;
     prm_get_bool := fun _ entry =>
       bool_decide (entry = "Use years in output instead of seconds") |}.

(** One top cell with one face on boundary 1, sampled at the north pole of
    a sphere of radius 6336000 with a velocity along the first axis. *)
Definition pole_face : Face :=
  {| f_at_boundary := true;
     f_boundary_id := 1%N;
     f_values := fun _ => [(mkPoint 0 0 6336000, mkPoint 1 0 0)%Q] |}.

Definition pole_simulator (step : Z) : Simulator :=
  {| geometry_model := SphericalShellModel;
     timestep_number := step;
     timestep := 31556952000%Q;
     convert_output_to_years := true;
     top_boundary := 1%N;
     active_cells := fun rank =>
       match rank with
       | O => [mkCell true true [pole_face]]
       | S _ => []
       end |}.

(** A box of 400 m on each side with one top cell; its face on the top
    boundary has one quadrature point, (300, 0, 400), where the material
    rises at one metre per second. *)
Definition box_face : Face :=
  {| f_at_boundary := true;
     f_boundary_id := 5%N;
     f_values := fun _ => [(mkPoint 300 0 400, mkPoint 0 0 1)%Q] |}.

Definition box_simulator (step : Z) : Simulator :=
  {| geometry_model := BoxModel (mkPoint 0 0 0) (mkPoint 400 400 400);
     timestep_number := step;
     timestep := 31556952000%Q;
     convert_output_to_years := true;
     top_boundary := 5%N;
     active_cells := fun rank =>
       match rank with
       | O => [mkCell true true [box_face]]
       | S _ => []
       end |}.




(** [k] passes through the body of the loop of lines 195-199. *)
Definition doubled (k : nat) (iterations : Z) : Z :=
  Nat.iter k (fun i => wrap_uint (i * 2)) iterations.

Definition halved (k : nat) (dt : double) : double :=
  Nat.iter k (fun d => d * (1 # 2))%Q dt.

(** * The remaining members of the plugin *)

(** ** The sample that a cell keeps *)

Global Instance writes_cell_dec (i : nat) (smp : Sample) : Decision (writes_cell i smp).
Proof. unfold writes_cell. apply _. Defined.

(** The last sample, in the order of lines 156-184, that writes cell [i]. *)
Definition last_write (i : nat) (samples : list Sample) : option Sample :=
  last (filter (writes_cell i) samples).

(** ** [declare_parameters], lines 309-432 *)

(** [Patterns::Integer], [Patterns::Double] with their optional bounds, and
    [Patterns::Bool]. *)
Inductive Pattern : Type :=
  | PInteger (bounds : option (Z * Z))
  | PDouble (lower : option double) (upper : option double)
  | PBool.

(** One [prm.declare_entry]: the subsections entered, the entry, its
    default as written, and its pattern. *)
Record Declaration : Type := mkDeclaration {
  d_path : list string;
  d_entry : string;
  d_default : string;
  d_pattern : Pattern
}.

Definition shell_section : list string := ["Geometry model"; "Spherical shell"].

Definition declare_parameters : list Declaration :=
  [ mkDeclaration shell_section "Inner radius" "3481000" (PDouble (Some 0%Q) None);
    mkDeclaration shell_section "Outer radius" "6336000" (PDouble (Some 0%Q) None);
    mkDeclaration shell_section "Opening angle" "360" (PDouble (Some 0%Q) (Some 360%Q));
    mkDeclaration fastscapecc_section "Number of steps" "10" (PInteger None);
    mkDeclaration fastscapecc_section "Maximum timestep" "10e3" (PDouble (Some 0%Q) None);
    mkDeclaration fastscapecc_section "Additional fastscape refinement levels" "0"
      (PInteger None);
    mkDeclaration fastscapecc_section "Use center slice for 2d" "false" PBool;
    mkDeclaration fastscapecc_section "Fastscape seed" "1000" (PInteger None);
    mkDeclaration fastscapecc_section "Maximum surface refinement level" "1"
      (PInteger None);
    mkDeclaration fastscapecc_section "Surface refinement difference" "0" (PInteger None);
    mkDeclaration fastscapecc_section "Y extent in 2d" "100000" (PDouble None None);
    mkDeclaration fastscapecc_section "Use velocities" "true" PBool;
    mkDeclaration fastscapecc_section "Precision" "0.001" (PDouble None None);
    mkDeclaration fastscapecc_section "Initial noise magnitude" "5" (PDouble None None);
    mkDeclaration boundary_section "Front" "1" (PInteger (Some (0, 1)));
    mkDeclaration boundary_section "Right" "1" (PInteger (Some (0, 1)));
    mkDeclaration boundary_section "Back" "1" (PInteger (Some (0, 1)));
    mkDeclaration boundary_section "Left" "1" (PInteger (Some (0, 1)));
    mkDeclaration erosional_section "Drainage area exponent" "0.4" (PDouble None None);
    mkDeclaration erosional_section "Slope exponent" "1" (PDouble None None);
    mkDeclaration erosional_section "Bedrock river incision rate" "1e-5"
      (PDouble None None);
    mkDeclaration erosional_section "Sediment river incision rate" "-1"
      (PDouble None None);
    mkDeclaration erosional_section "Bedrock diffusivity" "1e-2" (PDouble None None);
    mkDeclaration erosional_section "Sediment diffusivity" "-1" (PDouble None None);
    mkDeclaration erosional_section "Elevation factor" "1" (PDouble None None) ].

(** The entries [declare_parameters] declares, by subsection path and name. *)
Definition declared_entries : list (list string * string) :=
  (fun d => (d_path d, d_entry d)) <$> declare_parameters.

(** The entries [parse_parameters] reads that the plugin does not declare
    itself: they belong to the host and to the box geometry model. *)
Definition host_entries : list (list string * string) :=
  [ (geometry_section, "Model name");
    ([], "End time");
    ([], "Use years in output instead of seconds");
    (["Geometry model"; "Box"], "X repetitions");
    (["Geometry model"; "Box"], "Y repetitions");
    (["Geometry model"; "Box"], "Z repetitions") ]%string.

(** The entries that [parse_parameters] reads, lines 438-551. *)
Definition parsed_entries : list (list string * string) :=
  [ (geometry_section, "Model name");
    ([], "End time");
    ([], "Use years in output instead of seconds");
    (["Geometry model"; "Box"], "X repetitions");
    (["Geometry model"; "Box"], "Y repetitions");
    (["Geometry model"; "Box"], "Z repetitions");
    (shell_section, "Inner radius");
    (shell_section, "Outer radius");
    (shell_section, "Opening angle");
    (fastscapecc_section, "Number of steps");
    (fastscapecc_section, "Maximum timestep");
    (fastscapecc_section, "Additional fastscape refinement levels");
    (fastscapecc_section, "Use center slice for 2d");
    (fastscapecc_section, "Fastscape seed");
    (fastscapecc_section, "Maximum surface refinement level");
    (fastscapecc_section, "Surface refinement difference");
    (fastscapecc_section, "Y extent in 2d");
    (fastscapecc_section, "Precision");
    (fastscapecc_section, "Initial noise magnitude");
    (boundary_section, "Front");
    (boundary_section, "Right");
    (boundary_section, "Back");
    (boundary_section, "Left");
    (erosional_section, "Drainage area exponent");
    (erosional_section, "Slope exponent");
    (erosional_section, "Sediment river incision rate");
    (erosional_section, "Bedrock river incision rate");
    (erosional_section, "Sediment diffusivity");
    (erosional_section, "Bedrock diffusivity") ]%string.

(** The entries that are declared and not read. *)
Definition ignored_entries : list (list string * string) :=
  [ (fastscapecc_section, "Use velocities");
    (erosional_section, "Elevation factor") ]%string.

(** The default parameter file with one more entry, neither declared nor
    read. *)
Definition other_prm : ParameterHandler :=
  let base := default_prm "spherical shell" 0 0 in
  {| prm_get := prm_get base;
     prm_get_integer := fun path entry =>
       if bool_decide (entry = "Unrelated"%string) then 77
       else prm_get_integer base path entry;
     prm_get_double := prm_get_double base;
     prm_get_bool := prm_get_bool base |}.

(** The default parameter file with other values at the two ignored
    entries. *)
Definition ignoring_prm : ParameterHandler :=
  let base := default_prm "spherical shell" 0 0 in
  {| prm_get := prm_get base;
     prm_get_integer := prm_get_integer base;
     prm_get_double := fun path entry =>
       if bool_decide ((path, entry) = (erosional_section, "Elevation factor"%string))
       then 3%Q else prm_get_double base path entry;
     prm_get_bool := fun path entry =>
       if bool_decide ((path, entry) = (fastscapecc_section, "Use velocities"%string))
       then false else prm_get_bool base path entry |}.

(** Two parameter files with the same values at the given entries. *)
Definition same_at (entries : list (list string * string))
    (prm prm' : ParameterHandler) : Prop :=
  forall (path : list string) (entry : string),
    (path, entry) ∈ entries ->
    prm_get prm path entry = prm_get prm' path entry /\
    prm_get_integer prm path entry = prm_get_integer prm' path entry /\
    prm_get_double prm path entry = prm_get_double prm' path entry /\
    prm_get_bool prm path entry = prm_get_bool prm' path entry.

(** Two parameter files with the same values outside the given entries. *)
Definition same_outside (entries : list (list string * string))
    (prm prm' : ParameterHandler) : Prop :=
  forall (path : list string) (entry : string),
    (path, entry) ∉ entries ->
    prm_get prm path entry = prm_get prm' path entry /\
    prm_get_integer prm path entry = prm_get_integer prm' path entry /\
    prm_get_double prm path entry = prm_get_double prm' path entry /\
    prm_get_bool prm path entry = prm_get_bool prm' path entry.

(** ** [needs_surface_stabilization], lines 301-307 *)

Definition needs_surface_stabilization : bool := true.

(** ** [fill_data_table], lines 265-297 *)

(** [Table<3,double>]: the entry at [(j, i, k)] is element [j] of row [i] of
    layer [k]. *)
Abbreviation Table3 := (list (list (list double))).

Definition table_at (t : Table3) (j i k : nat) : option double :=
  layer ← t !! k; row ← layer !! i; row !! j.

Section Tables.

Context `{lib : Libraries}.

(** Line 292.  [array_size * i + j] is computed in [unsigned int], the type
    of [i] and [j]. *)
Definition table_entry (values : list double) (array_size : Z) (i j : nat)
  : option double :=
  v ← vector_get values (wrap_uint (array_size * Z.of_nat i + Z.of_nat j));
  Some (v / year_in_seconds)%Q.

(** The table for sizes [(n0, n1, n2)]; no result when a read of [values]
    is outside the vector. *)
Definition fill_data_table (values : list double) (size_idx : nat * nat * nat)
    (array_size : Z) : option Table3 :=
  let '(n0, n1, n2) := size_idx in
  mapM (fun k : nat =>
          mapM (fun i : nat =>
                  mapM (fun j : nat => table_entry values array_size i j) (seq 0 n0))
               (seq 0 n1))
       (seq 0 n2).

End Tables.

(** * Properties *)

(** ** Sub-cycling *)


Lemma doubled_wrap (k : nat) (i : Z) :
  wrap_uint (doubled k i) = wrap_uint (i * 2 ^ Z.of_nat k).
Proof.
  induction k as [|k IH].
  - simpl. by rewrite Z.mul_1_r.
  - change (doubled (S k) i) with (wrap_uint (doubled k i * 2)).
    unfold wrap_uint in *.
    rewrite Z.mod_mod by done.
    rewrite <- Z.mul_mod_idemp_l by done. rewrite IH.
    rewrite Z.mul_mod_idemp_l by done.
    f_equal. rewrite Nat2Z.inj_succ, Z.pow_succ_r by lia. ring.
Qed.

Lemma doubled_in_range (k : nat) (i : Z) :
  0 <= i < UINT_MODULUS -> doubled k i = wrap_uint (i * 2 ^ Z.of_nat k).
Proof.
  intros Hi. rewrite <- doubled_wrap. unfold wrap_uint.
  destruct k as [|k].
  - simpl. by rewrite Z.mod_small.
  - change (doubled (S k) i) with (wrap_uint (doubled k i * 2)).
    unfold wrap_uint. by rewrite Z.mod_mod.
Qed.

Lemma halved_succ (k : nat) (dt : double) :
  halved (S k) dt = (halved k dt * (1 # 2))%Q.
Proof. reflexivity. Qed.

Lemma halved_shift (k : nat) (dt : double) :
  halved (S k) dt = halved k (dt * (1 # 2))%Q.
Proof. unfold halved. by rewrite Nat.iter_succ_r. Qed.

Lemma halved_value (k : nat) (dt : double) :
  (halved k dt * inject_Z (2 ^ Z.of_nat k) == dt)%Q.
Proof.
  induction k as [|k IH].
  - change (dt * 1 == dt)%Q. ring.
  - rewrite halved_succ, Nat2Z.inj_succ, Z.pow_succ_r by lia.
    rewrite inject_Z_mult. rewrite <- IH at 2.
    change (inject_Z 2) with 2%Q. ring.
Qed.

(** The loop returns after [k] passes when the duration first fits. *)
Lemma halve_until_steps (k : nat) :
  forall (fuel : nat) (D : double) (it : Z) (dt : double),
    (k < fuel)%nat ->
    (forall j : nat, (j < k)%nat -> (D < halved j dt)%Q) ->
    (halved k dt <= D)%Q ->
    halve_until fuel D it dt = Some (doubled k it, halved k dt).
Proof.
  induction k as [|k IH]; intros fuel D it dt Hfuel Hbefore Hfit.
  - destruct fuel as [|fuel]; [lia|]. simpl in *.
    destruct (Qlt_le_dec D dt) as [Hlt|Hle]; [|done].
    exfalso. apply (Qlt_not_le _ _ Hlt Hfit).
  - destruct fuel as [|fuel]; [lia|]. cbn [halve_until].
    destruct (Qlt_le_dec D dt) as [Hlt|Hle].
    + rewrite (IH fuel D (wrap_uint (it * 2)) (dt * (1 # 2))%Q).
      * unfold doubled, halved. by rewrite !Nat.iter_succ_r.
      * lia.
      * intros j Hj. rewrite <- halved_shift. apply Hbefore. lia.
      * by rewrite <- halved_shift.
    + exfalso. specialize (Hbefore 0%nat ltac:(lia)). simpl in Hbefore.
      apply (Qlt_not_le _ _ Hbefore Hle).
Qed.

Lemma halve_until_fuel (fuel : nat) :
  forall (D : double) (it : Z) (dt : double) (r : Z * double) (fuel' : nat),
    halve_until fuel D it dt = Some r -> (fuel <= fuel')%nat ->
    halve_until fuel' D it dt = Some r.
Proof.
  induction fuel as [|fuel IH]; intros D it dt r fuel' Hr Hle; [done|].
  destruct fuel' as [|fuel']; [lia|]. cbn [halve_until] in *.
  destruct (Qlt_le_dec D dt); [|done]. apply (IH _ _ _ _ _ Hr). lia.
Qed.

Lemma pow2_pos (k : nat) : (0 < inject_Z (2 ^ Z.of_nat k))%Q.
Proof.
  change 0%Q with (inject_Z 0). rewrite <- Zlt_Qlt. lia.
Qed.

Lemma halved_div (k : nat) (dt : double) :
  (halved k dt == dt / inject_Z (2 ^ Z.of_nat k))%Q.
Proof.
  pose proof (pow2_pos k) as Hpos.
  rewrite <- (halved_value k dt) at 2. field.
  intros H. rewrite H in Hpos. by apply Qlt_irrefl in Hpos.
Qed.

(** Some number of halvings brings any duration below a positive bound. *)
Lemma halving_reaches (D dt : double) :
  (0 < D)%Q -> exists k : nat, (halved k dt <= D)%Q.
Proof.
  intros HD.
  exists (Z.to_nat (Qceiling (dt / D))).
  set (k := Z.to_nat (Qceiling (dt / D))).
  pose proof (pow2_pos k) as Hpos.
  rewrite halved_div.
  apply Qle_shift_div_r; [done|].
  assert (Hk : (dt / D <= inject_Z (2 ^ Z.of_nat k))%Q).
  { eapply Qle_trans; [apply Qle_ceiling|]. rewrite <- Zle_Qle.
    pose proof (Z.pow_gt_lin_r 2 (Z.of_nat k) ltac:(lia) ltac:(lia)).
    subst k. lia. }
  assert (Hdt : (dt == dt / D * D)%Q) by (field; lra).
  rewrite Hdt at 1. rewrite (Qmult_comm D).
  apply Qmult_le_compat_r; [exact Hk | lra].
Qed.

(** The least number of halvings. *)
Lemma least_halving (D dt : double) :
  (0 < D)%Q ->
  exists k : nat, (halved k dt <= D)%Q /\
                  forall j : nat, (j < k)%nat -> (D < halved j dt)%Q.
Proof.
  intros HD. destruct (halving_reaches D dt HD) as [n Hn].
  revert dt Hn. induction n as [|n IH]; intros dt Hn.
  - exists 0%nat. split; [done|]. intros j Hj. lia.
  - destruct (Qlt_le_dec D dt) as [Hlt|Hle].
    + rewrite halved_shift in Hn. destruct (IH _ Hn) as (k & Hk & Hbefore).
      exists (S k). split; [by rewrite halved_shift|].
      intros [|j] Hj; [done|]. rewrite halved_shift. apply Hbefore. lia.
    + exists 0%nat. split; [done|]. intros j Hj. lia.
Qed.

Lemma halved_start (j : nat) (T : double) (B : Z) :
  0 < B ->
  (halved j (T / inject_Z B) == T / inject_Z (B * 2 ^ Z.of_nat j))%Q.
Proof.
  intros HB. pose proof (pow2_pos j) as Hpos.
  assert (HBq : (0 < inject_Z B)%Q).
  { change 0%Q with (inject_Z 0). by rewrite <- Zlt_Qlt. }
  rewrite halved_div, inject_Z_mult. field. split; lra.
Qed.

Lemma Qeq_bool_false (x y : Q) : ~ (x == y)%Q -> Qeq_bool x y = false.
Proof.
  intros Hne. destruct (Qeq_bool x y) eqn:E; [|done].
  by apply Qeq_bool_iff in E.
Qed.

Lemma divide_by_count (T : double) (B : Z) :
  0 < B -> divide T (double_of_int B) = Finite (T / inject_Z B)%Q.
Proof.
  intros HB. unfold divide, double_of_int.
  rewrite Qeq_bool_false; [done|].
  change 0%Q with (inject_Z 0). rewrite inject_Z_injective. lia.
Qed.

(** With a count in the range of the type and a positive bound, the lines
    193-199 are the loop on the quotient [T / B]. *)
Lemma sub_stepping_positive (fuel : nat) (T : double) (B : Z) (D : double) :
  1 <= B < UINT_MODULUS -> (0 < D)%Q ->
  sub_stepping fuel T B D
  = (fun r => (r.1, Finite r.2)) <$> halve_until fuel D B (T / inject_Z B)%Q.
Proof.
  intros HB HD.
  assert (Hwrap : wrap_uint B = B) by (apply Z.mod_small; lia).
  unfold sub_stepping. rewrite Hwrap, divide_by_count by lia.
  rewrite (Qeq_bool_false D 0) by lra. cbn [andb].
  by destruct (halve_until fuel D B (T / inject_Z B)%Q).
Qed.

(** With a positive bound the loop returns. *)
Lemma sub_stepping_returns (T : double) (B : Z) (D : double) :
  1 <= B < UINT_MODULUS -> (0 < D)%Q ->
  exists (k fuel : nat),
    (halved k (T / inject_Z B) <= D)%Q /\
    (forall j : nat, (j < k)%nat -> (D < halved j (T / inject_Z B))%Q) /\
    sub_stepping fuel T B D
    = Some (doubled k B, Finite (halved k (T / inject_Z B))).
Proof.
  intros HB HD.
  destruct (least_halving D (T / inject_Z B) HD) as (k & Hfit & Hbefore).
  exists k, (S k). split; [done|]. split; [done|].
  rewrite sub_stepping_positive by done.
  by rewrite (halve_until_steps k (S k) D B _ ltac:(lia) Hbefore Hfit).
Qed.

(** C2, amended.  For a base count [B] that fits an [unsigned int] and a
    positive maximum duration [D], the loop returns; with [k] the least
    number of doublings such that [T / (B * 2^k) <= D], the duration it
    returns is [T / (B * 2^k)] and the count is [B * 2^k] reduced modulo
    2^32.  When [B * 2^k] is below 2^32 the count is [B * 2^k] itself and
    the duration is [T] divided by the count. *)
Theorem sub_stepping_count (T : double) (B : Z) (D : double) :
  1 <= B < UINT_MODULUS -> (0 < D)%Q ->
  exists k : nat,
    (T / inject_Z (B * 2 ^ Z.of_nat k) <= D)%Q /\
    (forall j : nat, (j < k)%nat -> (D < T / inject_Z (B * 2 ^ Z.of_nat j))%Q) /\
    exists (fuel : nat) (count : Z) (dt : double),
      sub_stepping fuel T B D = Some (count, Finite dt) /\
      count = wrap_uint (B * 2 ^ Z.of_nat k) /\
      (dt == T / inject_Z (B * 2 ^ Z.of_nat k))%Q /\
      (B * 2 ^ Z.of_nat k < UINT_MODULUS ->
       count = B * 2 ^ Z.of_nat k /\ (dt == T / inject_Z count)%Q).
Proof.
  intros HB HD.
  destruct (sub_stepping_returns T B D HB HD) as (k & fuel & Hfit & Hbefore & Hrun).
  exists k. split; [|split].
  - rewrite <- halved_start by lia. exact Hfit.
  - intros j Hj. rewrite <- halved_start by lia. by apply Hbefore.
  - exists fuel, (doubled k B), (halved k (T / inject_Z B)).
    split; [done|]. split; [|split].
    + apply doubled_in_range. lia.
    + apply halved_start. lia.
    + intros Hsmall. rewrite doubled_in_range by lia.
      assert (Hcount : wrap_uint (B * 2 ^ Z.of_nat k) = B * 2 ^ Z.of_nat k).
      { apply Z.mod_small. split; [|done]. apply Z.mul_nonneg_nonneg; lia. }
      rewrite Hcount. split; [done|]. apply halved_start. lia.
Qed.

(** C2, an instance: a timestep of 100 years, ten base steps, at most 3
    years per sub-step. *)
Lemma sub_stepping_count_witness :
  1 <= 10 < UINT_MODULUS /\
  (0 < 3)%Q /\
  exists k : nat,
    (100 / inject_Z (10 * 2 ^ Z.of_nat k) <= 3)%Q /\
    (forall j : nat, (j < k)%nat -> (3 < 100 / inject_Z (10 * 2 ^ Z.of_nat j))%Q) /\
    exists (fuel : nat) (count : Z) (dt : double),
      sub_stepping fuel 100 10 3 = Some (count, Finite dt) /\
      count = wrap_uint (10 * 2 ^ Z.of_nat k) /\
      (dt == 100 / inject_Z (10 * 2 ^ Z.of_nat k))%Q /\
      (10 * 2 ^ Z.of_nat k < UINT_MODULUS ->
       count = 10 * 2 ^ Z.of_nat k /\ (dt == 100 / inject_Z count)%Q).
Proof.
  assert (HB : 1 <= 10 < UINT_MODULUS) by (unfold UINT_MODULUS; lia).
  assert (HD : (0 < 3)%Q) by reflexivity.
  split; [exact HB|]. split; [exact HD|].
  exact (sub_stepping_count 100 10 3 HB HD).
Defined.

(** C2 as stated fails: with a timestep of 2^32 years, one base step and a
    maximum duration of one year, the counter is doubled 32 times and is 0
    when the loop returns; no count the loop can return is of the form
    [1 * 2^k]. *)
Lemma sub_stepping_overflow :
  (fst <$> sub_stepping 40 (inject_Z (2 ^ 32)) 1 1 = Some 0) /\
  ~ exists (fuel : nat) (count : Z) (dt : xdouble) (k : nat),
      sub_stepping fuel (inject_Z (2 ^ 32)) 1 1 = Some (count, dt) /\
      count = 1 * 2 ^ Z.of_nat k.
Proof.
  split; [by vm_compute|].
  intros (fuel & count & dt & k & Hrun & Hcount).
  assert (HB : 1 <= 1 < UINT_MODULUS) by (unfold UINT_MODULUS; lia).
  assert (HD : (0 < 1)%Q) by reflexivity.
  assert (H40 : exists dt0,
             halve_until 40 1 1 (inject_Z (2 ^ 32) / inject_Z 1)%Q = Some (0, dt0)).
  { vm_compute. eauto. }
  destruct H40 as [dt0 H40].
  rewrite sub_stepping_positive in Hrun by done.
  destruct (halve_until fuel 1 1 (inject_Z (2 ^ 32) / inject_Z 1)%Q)
    as [r|] eqn:Hr; [|done].
  assert (r.1 = 0) as Hzero.
  { destruct (Nat.le_ge_cases fuel 40) as [Hle|Hge].
    - pose proof (halve_until_fuel _ _ _ _ _ _ Hr Hle) as H.
      rewrite H40 in H. by inversion H.
    - pose proof (halve_until_fuel _ _ _ _ _ _ H40 Hge) as H.
      rewrite Hr in H. by inversion H. }
  cbn in Hrun. inversion Hrun as [[Hc Hd]].
  rewrite Hzero in Hc. subst count.
  pose proof (Z.pow_pos_nonneg 2 (Z.of_nat k) ltac:(lia) ltac:(lia)). lia.
Qed.


(** ** Initialization *)

Section Initialization.

Context `{lib : Libraries}.

(** C6.  [initialize] ends in the exception of line 84 exactly when the
    geometry type is neither [Box] nor [SphericalShell], and then the
    object is as it was: no grid extent and no resolution parameter has
    been written. *)
Theorem initialize_fatal_iff (sim : Simulator) (s : FastScapecc) :
  ((exists msg, (initialize sim s).2 = Threw msg) <->
   (geometry_type s <> Box /\ geometry_type s <> SphericalShell)) /\
  (forall msg, (initialize sim s).2 = Threw msg -> (initialize sim s).1 = s).
Proof.
  unfold initialize.
  destruct (geometry_type s) eqn:Hg; cbn [fst snd].
  - destruct (as_box (geometry_model sim)) as [[origin extents]|];
      [destruct (set_box_grid s origin extents)|]; cbn [fst snd];
      (split; [split; [intros [msg H]; discriminate | intros [H _]; congruence]
              | intros msg H; discriminate]).
  - destruct (trunc_sqrt (nsides_radicand s)); cbn [fst snd];
      (split; [split; [intros [msg H]; discriminate | intros [_ H]; congruence]
              | intros msg H; discriminate]).
  - split; [split; [intros _; split; discriminate | intros _; eauto] | done].
Qed.

Lemma nsides_radicand_value (s : FastScapecc) :
  let L := additional_refinement_levels s + surface_refinement_difference s
           + maximum_surface_refinement_level s in
  0 <= L + 1 ->
  (nsides_radicand s == inject_Z (2 ^ (L + 1) * 2 ^ (L + 1)))%Q.
Proof.
  intros L HL. unfold nsides_radicand. fold L. unfold pow2.
  rewrite <- Z.pow_add_r by lia.
  rewrite Zpower_Qpower by lia. change (inject_Z 2) with 2%Q.
  replace (L + 1 + (L + 1)) with (L * 2 + 2) by lia.
  rewrite Qpower_plus by done.
  change (2 ^ 2)%Q with 4%Q. field.
Qed.

(** The root of line 80 for an exponent [L + 1] that is not negative. *)
Lemma trunc_sqrt_radicand (s : FastScapecc) :
  let L := additional_refinement_levels s + surface_refinement_difference s
           + maximum_surface_refinement_level s in
  0 <= L + 1 ->
  trunc_sqrt (nsides_radicand s)
  = if decide (INT_MIN <= 2 ^ (L + 1) <= INT_MAX) then Some (2 ^ (L + 1)) else None.
Proof.
  intros L HL. unfold trunc_sqrt.
  rewrite (Qfloor_comp _ _ (nsides_radicand_value s HL)).
  fold L. by rewrite Qfloor_Z, Z.sqrt_square by lia.
Qed.

(** C7, amended.  For the spherical shell, with refinement levels that are
    not negative and whose sum [L] is at most 29, [initialize] completes
    and sets [nsides] to [2^(L + 1)], a power of two in the range of
    [int].  Then [12 * nsides^2] is [12 * 4^(L + 1)], and it is in the
    range of the [int] of line 146 exactly when [L] is at most 12. *)
Theorem nsides_is_power_of_two (sim : Simulator) (s : FastScapecc) :
  let L := additional_refinement_levels s + surface_refinement_difference s
           + maximum_surface_refinement_level s in
  geometry_type s = SphericalShell ->
  0 <= additional_refinement_levels s ->
  0 <= surface_refinement_difference s ->
  0 <= maximum_surface_refinement_level s ->
  L <= 29 ->
  (initialize sim s).2 = Completed /\
  nsides (initialize sim s).1 = 2 ^ (L + 1) /\
  1 <= nsides (initialize sim s).1 <= INT_MAX /\
  12 * nsides (initialize sim s).1 ^ 2 = 12 * 4 ^ (L + 1) /\
  (12 * nsides (initialize sim s).1 ^ 2 <= INT_MAX <-> L <= 12).
Proof.
  intros L Hg Ha Hd Hm HL. unfold initialize. rewrite Hg.
  assert (H0 : 0 <= L + 1) by (unfold L; lia).
  assert (Hrange : 1 <= 2 ^ (L + 1) <= 2 ^ 30).
  { split; [lia|]. apply Z.pow_le_mono_r; lia. }
  rewrite (trunc_sqrt_radicand s H0). fold L.
  rewrite decide_True by (unfold INT_MIN, INT_MAX; lia).
  cbn [fst snd set_nsides nsides].
  assert (Hsq : 12 * (2 ^ (L + 1)) ^ 2 = 12 * 4 ^ (L + 1)).
  { change 4 with (2 ^ 2). rewrite <- !Z.pow_mul_r by lia.
    do 2 f_equal. lia. }
  split; [done|]. split; [done|].
  split; [unfold INT_MAX; lia|]. split; [exact Hsq|].
  rewrite Hsq. unfold INT_MAX. split.
  - intros Hfit. destruct (Z_le_gt_dec L 12) as [|Hbig]; [done|].
    pose proof (Z.pow_le_mono_r 4 14 (L + 1) ltac:(lia) ltac:(lia)). lia.
  - intros Hsmall.
    pose proof (Z.pow_le_mono_r 4 (L + 1) 13 ltac:(lia) ltac:(lia)). lia.
Qed.

End Initialization.

(** C7 amended, an instance: the default refinement levels 0, 0 and 1;
    [nsides] is 4. *)
Lemma nsides_is_power_of_two_witness :
  let sim := pole_simulator 0 in
  let s := parse_parameters (lib := still_libraries) sim
             (default_prm "spherical shell" 0 0) (blank_plugin OtherGeometry) in
  let L := additional_refinement_levels s + surface_refinement_difference s
           + maximum_surface_refinement_level s in
  geometry_type s = SphericalShell /\
  0 <= additional_refinement_levels s /\
  0 <= surface_refinement_difference s /\
  0 <= maximum_surface_refinement_level s /\
  L <= 29 /\
  (initialize (lib := still_libraries) sim s).2 = Completed /\
  nsides (initialize (lib := still_libraries) sim s).1 = 2 ^ (L + 1) /\
  1 <= nsides (initialize (lib := still_libraries) sim s).1 <= INT_MAX /\
  12 * nsides (initialize (lib := still_libraries) sim s).1 ^ 2 = 12 * 4 ^ (L + 1) /\
  (12 * nsides (initialize (lib := still_libraries) sim s).1 ^ 2 <= INT_MAX
   <-> L <= 12).
Proof.
  intros sim s L.
  assert (Hg : geometry_type s = SphericalShell) by reflexivity.
  assert (Ha : 0 <= additional_refinement_levels s) by (by vm_compute).
  assert (Hd : 0 <= surface_refinement_difference s) by (by vm_compute).
  assert (Hm : 0 <= maximum_surface_refinement_level s) by (by vm_compute).
  assert (HL : L <= 29) by (by vm_compute).
  split; [exact Hg|]. split; [exact Ha|]. split; [exact Hd|].
  split; [exact Hm|]. split; [exact HL|].
  exact (nsides_is_power_of_two (lib := still_libraries) sim s Hg Ha Hd Hm HL).
Defined.

(** C7 as stated fails.  With 29 additional refinement levels, no
    refinement difference and the default maximum level 1, the sum is 30:
    the radicand is 2^62, its root 2^31 is above the largest [int], and
    the conversion of line 80 has no defined result.  [initialize] does
    not complete with [nsides] equal to 2^(30 + 1). *)
Lemma nsides_beyond_int :
  let sim := pole_simulator 0 in
  let s := parse_parameters (lib := still_libraries) sim
             (default_prm "spherical shell" 29 0) (blank_plugin OtherGeometry) in
  let L := additional_refinement_levels s + surface_refinement_difference s
           + maximum_surface_refinement_level s in
  geometry_type s = SphericalShell /\
  additional_refinement_levels s = 29 /\
  surface_refinement_difference s = 0 /\
  maximum_surface_refinement_level s = 1 /\
  L = 30 /\
  (nsides_radicand s == inject_Z (2 ^ 31 * 2 ^ 31))%Q /\
  INT_MAX < 2 ^ (L + 1) /\
  trunc_sqrt (nsides_radicand s) = None /\
  (initialize (lib := still_libraries) sim s).2 = UndefinedBehaviour /\
  ~ ((initialize (lib := still_libraries) sim s).2 = Completed /\
     nsides (initialize (lib := still_libraries) sim s).1 = 2 ^ (L + 1)).
Proof.
  cbv zeta. split; [reflexivity|]. split; [reflexivity|].
  split; [reflexivity|]. split; [reflexivity|]. split; [reflexivity|].
  split; [by vm_compute|]. split; [by vm_compute|].
  split; [by vm_compute|]. split; [by vm_compute|].
  intros [H _]. by vm_compute in H.
Qed.
(** ** Gathering *)

Lemma vector_set_length (v v' : list double) (i : Z) (x : double) :
  vector_set v i x = Some v' -> length v' = length v.
Proof.
  unfold vector_set. case_decide; [|done]. intros [= <-]. apply length_insert.
Qed.

Lemma vector_set_other (v v' : list double) (i : Z) (x : double) (j : nat) :
  vector_set v i x = Some v' -> i <> Z.of_nat j -> v' !! j = v !! j.
Proof.
  unfold vector_set. case_decide; [|done]. intros [= <-] Hne.
  apply list_lookup_insert_ne. lia.
Qed.

Lemma write_sample_other (hv hv' : list double * list double) (smp : Sample) (j : nat) :
  write_sample hv smp = Some hv' ->
  ~ writes_cell j smp ->
  hv'.1 !! j = hv.1 !! j /\ hv'.2 !! j = hv.2 !! j.
Proof.
  unfold write_sample, writes_cell. intros Hw Hne.
  destruct (static_cast_int (s_index smp)) as [index|]; [|done].
  cbn in Hw.
  destruct (vector_set hv.1 index (s_height smp)) as [h'|] eqn:Hh; [|done].
  cbn in Hw.
  destruct (vector_set hv.2 index (s_velocity smp)) as [vz'|] eqn:Hvz; [|done].
  cbn in Hw. injection Hw as <-. cbn [fst snd].
  assert (index <> Z.of_nat j) by congruence.
  split; eapply vector_set_other; eauto.
Qed.

Lemma write_sample_length (hv hv' : list double * list double) (smp : Sample) :
  write_sample hv smp = Some hv' ->
  length hv'.1 = length hv.1 /\ length hv'.2 = length hv.2.
Proof.
  unfold write_sample. intros Hw.
  destruct (static_cast_int (s_index smp)) as [index|]; [|done].
  cbn in Hw.
  destruct (vector_set hv.1 index (s_height smp)) as [h'|] eqn:Hh; [|done].
  cbn in Hw.
  destruct (vector_set hv.2 index (s_velocity smp)) as [vz'|] eqn:Hvz; [|done].
  cbn in Hw. injection Hw as <-. cbn [fst snd].
  split; eapply vector_set_length; eauto.
Qed.

(** A sample whose index is a cell of both vectors is written. *)
Lemma write_sample_defined (hv : list double * list double) (smp : Sample) (index : Z) :
  static_cast_int (s_index smp) = Some index ->
  0 <= index < Z.of_nat (length hv.1) ->
  length hv.2 = length hv.1 ->
  is_Some (write_sample hv smp).
Proof.
  intros Hcast Hrange Hlen. unfold write_sample, vector_set. rewrite Hcast. cbn.
  destruct (decide (0 <= index < Z.of_nat (length hv.1))) as [_|]; [|lia]. cbn.
  destruct (decide (0 <= index < Z.of_nat (length hv.2))) as [_|]; [|lia]. cbn.
  eauto.
Qed.

Lemma write_samples_spec (samples : list Sample) :
  forall (hv : list double * list double),
    length hv.2 = length hv.1 ->
    Forall (sample_in_range (length hv.1)) samples ->
    exists hv', write_samples hv samples = Some hv' /\
      length hv'.1 = length hv.1 /\ length hv'.2 = length hv.1 /\
      forall j : nat,
        Forall (fun smp => ~ writes_cell j smp) samples ->
        hv'.1 !! j = hv.1 !! j /\ hv'.2 !! j = hv.2 !! j.
Proof.
  induction samples as [|smp rest IH]; intros hv Hlen Hrange.
  - exists hv. cbn. by repeat split.
  - apply Forall_cons in Hrange as [(index & Hcast & Hidx) Hrest].
    destruct (write_sample_defined hv smp index Hcast Hidx Hlen) as [hv1 Hw].
    destruct (write_sample_length _ _ _ Hw) as [Hl1 Hl2].
    destruct (IH hv1) as (hv' & Hrun & Hl1' & Hl2' & Hkeep).
    { congruence. }
    { by rewrite Hl1. }
    exists hv'. cbn [write_samples]. rewrite Hw. cbn. split; [done|].
    split; [congruence|]. split; [congruence|].
    intros j Hj. apply Forall_cons in Hj as [Hj Hjs].
    destruct (Hkeep j Hjs) as [-> ->]. by apply (write_sample_other hv hv1 smp).
Qed.

Lemma write_ranks_spec (per_rank : list (list Sample)) :
  forall (hv : list double * list double),
    length hv.2 = length hv.1 ->
    Forall (Forall (sample_in_range (length hv.1))) per_rank ->
    exists hv', write_ranks hv per_rank = Some hv' /\
      length hv'.1 = length hv.1 /\ length hv'.2 = length hv.1 /\
      forall j : nat,
        Forall (Forall (fun smp => ~ writes_cell j smp)) per_rank ->
        hv'.1 !! j = hv.1 !! j /\ hv'.2 !! j = hv.2 !! j.
Proof.
  induction per_rank as [|samples rest IH]; intros hv Hlen Hrange.
  - exists hv. cbn. by repeat split.
  - apply Forall_cons in Hrange as [Hsamples Hrest].
    destruct (write_samples_spec samples hv Hlen Hsamples)
      as (hv1 & Hw & Hl1 & Hl2 & Hkeep1).
    destruct (IH hv1) as (hv' & Hrun & Hl1' & Hl2' & Hkeep).
    { congruence. }
    { by rewrite Hl1. }
    exists hv'. cbn [write_ranks]. rewrite Hw. cbn. split; [done|].
    split; [congruence|]. split; [congruence|].
    intros j Hj. apply Forall_cons in Hj as [Hj Hjs].
    destruct (Hkeep j Hjs) as [-> ->]. by apply Hkeep1.
Qed.

(** C5.  When every gathered sample addresses a cell of the field, the
    gathering returns the two fields handed to the evolution loop, and a
    cell that no sample of any rank writes holds the largest double in the
    elevation field and zero in the uplift-rate field. *)
Theorem unwritten_cells_keep_sentinel (size : nat) (per_rank : list (list Sample)) :
  Forall (Forall (sample_in_range size)) per_rank ->
  exists h vz : list double,
    gather size per_rank = Some (h, vz) /\
    length h = size /\ length vz = size /\
    forall i : nat,
      (i < size)%nat ->
      Forall (Forall (fun smp => ~ writes_cell i smp)) per_rank ->
      h !! i = Some DBL_MAX /\ vz !! i = Some 0%Q.
Proof.
  intros Hrange. unfold gather.
  destruct (write_ranks_spec per_rank (replicate size DBL_MAX, xzeros size))
    as ([h vz] & Hrun & Hl1 & Hl2 & Hkeep).
  { cbn [fst snd]. unfold xzeros. by rewrite !length_replicate. }
  { cbn [fst snd]. by rewrite length_replicate. }
  cbn [fst snd] in *. rewrite length_replicate in Hl1, Hl2.
  exists h, vz. split; [done|]. split; [done|]. split; [done|].
  intros i Hi Hfree. destruct (Hkeep i Hfree) as [-> ->].
  unfold xzeros. by rewrite !lookup_replicate_2.
Qed.

(** C5, an instance: three cells, two ranks writing cells 0 and 2. *)
Lemma unwritten_cells_keep_sentinel_witness :
  let per_rank := [[mkSample 5 (double_of_int 0) 7]; [mkSample 9 (double_of_int 2) 1]]%Q in
  Forall (Forall (sample_in_range 3)) per_rank /\
  exists h vz : list double,
    gather 3 per_rank = Some (h, vz) /\
    length h = 3%nat /\ length vz = 3%nat /\
    forall i : nat,
      (i < 3)%nat ->
      Forall (Forall (fun smp => ~ writes_cell i smp)) per_rank ->
      h !! i = Some DBL_MAX /\ vz !! i = Some 0%Q.
Proof.
  intros per_rank.
  assert (Hrange : Forall (Forall (sample_in_range 3)) per_rank).
  { repeat constructor.
    - exists 0. split; [reflexivity | lia].
    - exists 2. split; [reflexivity | lia]. }
  split; [exact Hrange|].
  exact (unwritten_cells_keep_sentinel 3 per_rank Hrange).
Defined.


Section Properties.

Context `{lib : Libraries}.

(** ** First timestep *)

(** C8.  At timestep number 0 the call returns at once: no event
    (sampling, message, broadcast, interpolation) takes place and the
    constraints object is returned as given.  The plugin object is not
    written by this [const] member at any timestep. *)
Theorem first_timestep_is_skipped (fuel : nat) (s : FastScapecc) (sim : Simulator)
    (rank n_processes : nat) (dh : DoFHandler) (cs : AffineConstraints)
    (boundary_ids : list boundary_id) :
  timestep_number sim = 0 ->
  compute_velocity_constraints_on_boundary fuel s sim rank n_processes dh cs
    boundary_ids = mkRun [] (Returned cs).
Proof.
  intros H0. unfold compute_velocity_constraints_on_boundary.
  by rewrite decide_True.
Qed.

(** ** Messages *)

Lemma sends_events (count : nat) (lengths : list nat) :
  forall (i : nat) (e : Event),
    e ∈ (sends count i lengths).1 -> exists j : nat, e = EvSsend j count.
Proof.
  induction lengths as [|len rest IH]; intros i e Hin; cbn [sends] in Hin.
  - by apply elem_of_nil in Hin.
  - destruct (decide (count <= len)%nat); cbn [fst] in Hin.
    + apply elem_of_cons in Hin as [->|Hin]; [by exists i|]. by apply (IH (S i)).
    + apply elem_of_cons in Hin as [->|Hin]; [by exists i|].
      by apply elem_of_nil in Hin.
Qed.

Lemma receives_from_events (p count : nat) (e : Event) :
  e ∈ (receives_from p count).1 -> e = EvProbe p \/ exists i : nat, e = EvRecv p i.
Proof.
  unfold receives_from. cbn [fst]. intros Hin.
  apply elem_of_cons in Hin as [->|Hin]; [by left|].
  apply list_elem_of_fmap in Hin as (i & -> & _). right. by exists i.
Qed.

Lemma receives_events (counts : list nat) :
  forall (p : nat) (e : Event),
    e ∈ (receives p counts).1 ->
    exists q : nat, (p <= q < p + length counts)%nat /\
                    (e = EvProbe q \/ exists i : nat, e = EvRecv q i).
Proof.
  induction counts as [|count rest IH]; intros p e Hin; cbn [receives] in Hin.
  - by apply elem_of_nil in Hin.
  - destruct (receives_from p count).2 eqn:Hok; cbn [fst] in Hin.
    + apply elem_of_app in Hin as [Hin|Hin].
      * exists p. split; [cbn; lia|]. by apply (receives_from_events p count).
      * destruct (IH (S p) e Hin) as (q & Hq & He).
        exists q. split; [cbn; lia | done].
    + exists p. split; [cbn; lia|]. by apply (receives_from_events p count).
Qed.

(** A rank other than 0 only sends. *)
Lemma gather_events_other (s : FastScapecc) (sim : Simulator) (copies : Z)
    (rank n_processes : nat) (e : Event) :
  rank <> 0%nat ->
  e ∈ (gather_events s sim copies rank n_processes).1 ->
  exists i count : nat, e = EvSsend i count.
Proof.
  intros Hrank Hin. unfold gather_events in Hin.
  rewrite decide_False in Hin by done.
  apply sends_events in Hin as [i ->]. eauto.
Qed.

(** Rank 0 only probes and receives, from the ranks 1 to n-1. *)
Lemma gather_events_coordinator (s : FastScapecc) (sim : Simulator) (copies : Z)
    (n_processes : nat) (e : Event) :
  e ∈ (gather_events s sim copies 0 n_processes).1 ->
  exists p : nat, (1 <= p < n_processes)%nat /\
                  (e = EvProbe p \/ exists i : nat, e = EvRecv p i).
Proof.
  unfold gather_events. rewrite decide_True by done. intros Hin.
  apply receives_events in Hin as (p & Hp & He).
  unfold sample_counts in Hp. rewrite length_fmap, length_seq in Hp.
  exists p. split; [lia | done].
Qed.


(** ** Velocity *)

Lemma derive_velocity_no_return (sim : Simulator) (size : nat) (st : Store) :
  derive_velocity sim size st = NoReturn.
Proof.
  reflexivity.
Qed.

Lemma velocity_entry_formula (sim : Simulator) (elevation_std elevation_old_std : list double)
    (i : nat) (v : double) :
  velocity_entry sim elevation_std elevation_old_std i = Some v ->
  exists a b : double,
    elevation_std !! i = Some a /\ elevation_old_std !! i = Some b /\
    v = ((a - b) / (timestep sim / year_in_seconds))%Q.
Proof.
  unfold velocity_entry. intros Hv.
  destruct (elevation_std !! i) as [a|]; [|done].
  destruct (elevation_old_std !! i) as [b|]; [|done].
  cbn in Hv. injection Hv as <-. by exists a, b.
Qed.

Lemma evolve_keeps_snapshot (fuel : nat) (s : FastScapecc) (sim : Simulator)
    (h vz : list double) (st : Store) :
  evolve fuel s sim h vz = Returned st -> st_h_old st = h /\ st_vz st = vz.
Proof.
  unfold evolve. destruct (fuelled _) as [steps| |]; [|done..].
  cbn. by intros [= <-].
Qed.

Lemma coordinator_no_velocity (fuel : nat) (s : FastScapecc) (sim : Simulator)
    (per_rank : list (list Sample)) (V : list double) :
  coordinator fuel s sim per_rank <> Returned V.
Proof.
  unfold coordinator.
  destruct (defined (Npix (nsides s))) as [size| |]; cbn; [|done..].
  destruct (defined (gather size per_rank)) as [hv| |]; cbn; [|done..].
  destruct (evolve fuel s sim hv.1 hv.2) as [st| |]; cbn; [|done..].
  by rewrite derive_velocity_no_return.
Qed.

(** After the first timestep the call does not return, and its events are
    the sampling and the messages of the gathering, if any. *)
Lemma compute_later_timestep (fuel : nat) (s : FastScapecc) (sim : Simulator)
    (rank n_processes : nat) (dh : DoFHandler) (cs : AffineConstraints)
    (boundary_ids : list boundary_id) :
  timestep_number sim <> 0 ->
  let run := compute_velocity_constraints_on_boundary fuel s sim rank n_processes
               dh cs boundary_ids in
  (result run = NoReturn \/ result run = OutOfFuel) /\
  (trace run = [] \/
   exists copies : Z,
     quadrature_copies s = Some copies /\
     trace run = EvSample :: (gather_events s sim copies rank n_processes).1).
Proof.
  intros Hstep. unfold compute_velocity_constraints_on_boundary.
  rewrite decide_False by done.
  destruct (quadrature_copies s) as [copies|]; [|split; by left].
  destruct (Npix (nsides s)) as [size|]; [|split; by left].
  destruct ((gather_events s sim copies rank n_processes).2
            && (gather_events s sim copies 0 n_processes).2).
  - pose proof (coordinator_no_velocity fuel s sim
                  (gathered_samples s sim copies n_processes)) as Hno.
    destruct (coordinator fuel s sim (gathered_samples s sim copies n_processes))
      as [V| |]; [by destruct (Hno V) | |]; cbn [trace result].
    + split; [by left|]. right. by exists copies.
    + split; [by right|]. right. by exists copies.
  - cbn [trace result]. split; [by left|]. right. by exists copies.
Qed.

(** C1, the code at line 231.  [elevation_old_std] is constructed from
    [elevation_old.begin()] and [elevation.end()], iterators into two
    different vectors, so the velocity of lines 233-236 is never derived:
    the coordinator returns no velocity field, and no call after the
    first timestep returns constraints. *)
Theorem velocity_is_not_derived (fuel : nat) (s : FastScapecc) (sim : Simulator)
    (per_rank : list (list Sample)) :
  (forall (size : nat) (st : Store), derive_velocity sim size st = NoReturn) /\
  (forall V : list double, coordinator fuel s sim per_rank <> Returned V) /\
  (forall (rank n_processes : nat) (dh : DoFHandler) (cs cs' : AffineConstraints)
          (boundary_ids : list boundary_id),
     timestep_number sim <> 0 ->
     result (compute_velocity_constraints_on_boundary fuel s sim rank n_processes
               dh cs boundary_ids) <> Returned cs').
Proof.
  split; [apply derive_velocity_no_return|]. split; [apply coordinator_no_velocity|].
  intros rank n_processes dh cs cs' boundary_ids Hstep.
  destruct (compute_later_timestep fuel s sim rank n_processes dh cs boundary_ids
              Hstep) as [[Hr|Hr] _]; by rewrite Hr.
Qed.

(** ** Erosional parameters *)

Lemma evolve_clear_erosional (fuel : nat) (s : FastScapecc) (sim : Simulator)
    (h vz : list double) :
  evolve fuel (clear_erosional s) sim h vz = evolve fuel s sim h vz.
Proof. reflexivity. Qed.

Lemma boundary_samples_clear_erosional (s : FastScapecc) (sim : Simulator)
    (copies : Z) (rank : nat) :
  boundary_samples (clear_erosional s) sim copies rank
  = boundary_samples s sim copies rank.
Proof. reflexivity. Qed.

Lemma coordinator_clear_erosional (fuel : nat) (s : FastScapecc) (sim : Simulator)
    (per_rank : list (list Sample)) :
  coordinator fuel (clear_erosional s) sim per_rank = coordinator fuel s sim per_rank.
Proof. reflexivity. Qed.

Lemma compute_clear_erosional (fuel : nat) (s : FastScapecc) (sim : Simulator)
    (rank n_processes : nat) (dh : DoFHandler) (cs : AffineConstraints)
    (boundary_ids : list boundary_id) :
  compute_velocity_constraints_on_boundary fuel (clear_erosional s) sim rank
    n_processes dh cs boundary_ids
  = compute_velocity_constraints_on_boundary fuel s sim rank n_processes dh cs
      boundary_ids.
Proof. reflexivity. Qed.

Lemma initialize_clear_erosional (sim : Simulator) (s : FastScapecc) :
  initialize sim (clear_erosional s)
  = (clear_erosional (initialize sim s).1, (initialize sim s).2).
Proof.
  unfold initialize. cbn [clear_erosional geometry_type].
  destruct (geometry_type s); [| |done].
  - destruct (as_box (geometry_model sim)) as [[origin extents]|]; [|done].
    unfold set_box_grid.
    change (repetitions (clear_erosional s)) with (repetitions s).
    destruct (member_int (fst (fst (repetitions s)) + 1)) as [nx'|]; [|done].
    destruct (member_int (snd (fst (repetitions s)) + 1)) as [ny'|]; [|done].
    cbn [mbind option_bind].
    by destruct (member_int (nx' * ny')) as [array_size'|].
  - change (nsides_radicand (clear_erosional s)) with (nsides_radicand s).
    by destruct (trunc_sqrt (nsides_radicand s)).
Qed.

Lemma parse_parameters_clear_erosional (sim : Simulator) (prm prm' : ParameterHandler)
    (s0 : FastScapecc) :
  same_outside_erosional prm prm' ->
  clear_erosional (parse_parameters sim prm s0)
  = clear_erosional (parse_parameters sim prm' s0).
Proof.
  intros Hsame. unfold clear_erosional, parse_parameters. cbn.
  assert (Hget : forall path entry, path <> erosional_section ->
                   prm_get prm path entry = prm_get prm' path entry)
    by (intros; by apply Hsame).
  assert (Hint : forall path entry, path <> erosional_section ->
                   prm_get_integer prm path entry = prm_get_integer prm' path entry)
    by (intros; by apply Hsame).
  assert (Hdbl : forall path entry, path <> erosional_section ->
                   prm_get_double prm path entry = prm_get_double prm' path entry)
    by (intros; by apply Hsame).
  assert (Hbool : forall path entry, path <> erosional_section ->
                   prm_get_bool prm path entry = prm_get_bool prm' path entry)
    by (intros; by apply Hsame).
  rewrite !(Hget geometry_section) by done.
  rewrite !(Hint ["Geometry model"; "Box"]) by done.
  rewrite !(Hdbl ["Geometry model"; "Spherical shell"]) by done.
  rewrite !(Hdbl []), !(Hbool []) by done.
  rewrite !(Hint fastscapecc_section), !(Hdbl fastscapecc_section),
    !(Hbool fastscapecc_section) by done.
  rewrite !(Hint boundary_section) by done.
  reflexivity.
Qed.

(** C9.  Two parameter files that differ only in the subsection
    "Erosional parameters" give the same setup status and the same
    coupling step (events and result), the same coordinator result and
    the same elevation fields after the sub-steps. *)
Theorem erosional_parameters_have_no_influence (fuel : nat)
    (prm prm' : ParameterHandler) (s0 : FastScapecc) (sim : Simulator)
    (rank n_processes : nat) (dh : DoFHandler) (cs : AffineConstraints)
    (boundary_ids : list boundary_id) :
  same_outside_erosional prm prm' ->
  configured_step fuel prm s0 sim rank n_processes dh cs boundary_ids
  = configured_step fuel prm' s0 sim rank n_processes dh cs boundary_ids /\
  (forall per_rank,
     coordinator fuel (initialize sim (parse_parameters sim prm s0)).1 sim per_rank
     = coordinator fuel (initialize sim (parse_parameters sim prm' s0)).1 sim per_rank) /\
  (forall h vz,
     evolve fuel (initialize sim (parse_parameters sim prm s0)).1 sim h vz
     = evolve fuel (initialize sim (parse_parameters sim prm' s0)).1 sim h vz).
Proof.
  intros Hsame.
  pose proof (parse_parameters_clear_erosional sim prm prm' s0 Hsame) as Hparse.
  pose proof (initialize_clear_erosional sim (parse_parameters sim prm s0)) as Hi.
  pose proof (initialize_clear_erosional sim (parse_parameters sim prm' s0)) as Hi'.
  rewrite Hparse, Hi' in Hi.
  pose proof (f_equal fst Hi) as Hstate. pose proof (f_equal snd Hi) as Hstatus.
  cbn [fst snd] in Hstate, Hstatus. clear Hi Hi' Hparse.
  split; [|split].
  - unfold configured_step.
    destruct (initialize sim (parse_parameters sim prm s0)) as [s st].
    destruct (initialize sim (parse_parameters sim prm' s0)) as [s' st'].
    cbn [fst snd] in *. subst st'.
    destruct st; [|done..].
    rewrite <- (compute_clear_erosional fuel s), <- (compute_clear_erosional fuel s').
    by rewrite Hstate.
  - intros per_rank.
    rewrite <- (coordinator_clear_erosional fuel (initialize _ _).1).
    rewrite <- Hstate. apply coordinator_clear_erosional.
  - intros h vz.
    rewrite <- (evolve_clear_erosional fuel (initialize _ _).1).
    rewrite <- Hstate. apply evolve_clear_erosional.
Qed.

(** ** Boundary interpolation *)

Lemma constrain_dof_none (b : boundary_id) (f : Point -> nat -> option double)
    (dh : DoFHandler) :
  foldl (constrain_dof b f) None dh = None.
Proof. by induction dh. Qed.





(** ** Sampling *)

(** The samples of a rank are the quadrature points of the faces on the
    top boundary of the cells it owns. *)
Lemma boundary_samples_elem (s : FastScapecc) (sim : Simulator) (copies : Z)
    (rank : nat) (smp : Sample) :
  smp ∈ boundary_samples s sim copies rank <->
  exists (cell : Cell) (face : Face) (vertex : Point) (vel : Tensor),
    cell ∈ active_cells sim rank /\
    c_locally_owned cell = true /\
    c_at_boundary cell = true /\
    face ∈ c_faces cell /\
    f_at_boundary face = true /\
    f_boundary_id face = top_boundary sim /\
    (vertex, vel) ∈ f_values face copies /\
    smp = sample_corner s vertex vel.
Proof.
  unfold boundary_samples. rewrite list_elem_of_bind. split.
  - intros (cell & Hin & Hcell).
    destruct (c_locally_owned cell) eqn:Hown; cbn in Hin;
      [|by apply elem_of_nil in Hin].
    destruct (c_at_boundary cell) eqn:Hat; cbn in Hin;
      [|by apply elem_of_nil in Hin].
    apply list_elem_of_bind in Hin as (face & Hin & Hface).
    unfold sample_face in Hin.
    destruct (f_at_boundary face) eqn:Hfat; [|by apply elem_of_nil in Hin].
    destruct (decide (f_boundary_id face <> top_boundary sim)) as [Hne|Heq];
      [by apply elem_of_nil in Hin|].
    apply list_elem_of_fmap in Hin as ([vertex vel] & -> & Hpv).
    exists cell, face, vertex, vel. repeat split; try done.
    by destruct (decide (f_boundary_id face = top_boundary sim)).
  - intros (cell & face & vertex & vel & Hcell & Hown & Hat & Hface & Hfat & Hid
            & Hpv & ->).
    exists cell. split; [|done]. rewrite Hown, Hat. cbn.
    apply list_elem_of_bind. exists face. split; [|done].
    unfold sample_face. rewrite Hfat. rewrite decide_False by (intros H; by apply H).
    apply list_elem_of_fmap. by exists (vertex, vel).
Qed.

(** The box branch of [initialize] writes neither [nsides] nor the outer
    radius. *)
Lemma initialize_box_keeps (sim : Simulator) (s : FastScapecc) :
  geometry_type s = Box ->
  nsides (initialize sim s).1 = nsides s /\
  outer_radius (initialize sim s).1 = outer_radius s /\
  geometry_type (initialize sim s).1 = Box.
Proof.
  intros Hbox. unfold initialize. rewrite Hbox.
  destruct (as_box (geometry_model sim)) as [[origin extents]|]; [|done].
  unfold set_box_grid.
  destruct (member_int (fst (fst (repetitions s)) + 1)) as [nx'|]; [|done].
  destruct (member_int (snd (fst (repetitions s)) + 1)) as [ny'|]; [|done].
  cbn [mbind option_bind].
  by destruct (member_int (nx' * ny')) as [array_size'|].
Qed.

Lemma sample_fields (smp : Sample) (h i v : double) :
  smp = mkSample h i v <-> s_height smp = h /\ s_index smp = i /\ s_velocity smp = v.
Proof.
  destruct smp as [h' i' v']. cbn. split.
  - by intros [= -> -> ->].
  - by intros (-> & -> & ->).
Qed.

(** C3, the code on a box.  After [initialize] has set up the planar grid
    of a box plugin, [nsides] is what it was before, and the samples of
    the coupling step are those taken before the set-up: the subdivision
    counts and spacings are not read.  The samples are exactly the
    quadrature points of the top faces, each with the HEALPix pixel of
    its point at that [nsides], with the third coordinate less the outer
    radius, and with the radial projection of the finite-element velocity
    at the point, in metres per year. *)
Theorem box_sampler_is_spherical (sim : Simulator) (s : FastScapecc)
    (copies : Z) (rank : nat) :
  geometry_type s = Box ->
  let s' := (initialize sim s).1 in
  geometry_type s' = Box /\
  nsides s' = nsides s /\
  boundary_samples s' sim copies rank = boundary_samples s sim copies rank /\
  forall smp : Sample,
    smp ∈ boundary_samples s' sim copies rank <->
    exists (cell : Cell) (face : Face) (vertex : Point) (vel : Tensor),
      cell ∈ active_cells sim rank /\
      c_locally_owned cell = true /\
      c_at_boundary cell = true /\
      face ∈ c_faces cell /\
      f_at_boundary face = true /\
      f_boundary_id face = top_boundary sim /\
      (vertex, vel) ∈ f_values face copies /\
      s_height smp = (p2 vertex - outer_radius s)%Q /\
      s_index smp = double_of_int (vec2pix (nsides s) vertex) /\
      s_velocity smp =
        ((p0 vertex * p0 vel + p1 vertex * p1 vel + p2 vertex * p2 vel)
         / norm vertex * year_in_seconds)%Q.
Proof.
  intros Hbox s'. destruct (initialize_box_keeps sim s Hbox) as (Hn & Hr & Hg).
  fold s' in Hn, Hr, Hg.
  assert (Hsame : boundary_samples s' sim copies rank
                  = boundary_samples s sim copies rank).
  { unfold boundary_samples, sample_face, sample_corner. by rewrite Hn, Hr. }
  split; [done|]. split; [done|]. split; [done|].
  intros smp. rewrite Hsame, boundary_samples_elem.
  split; intros (cell & face & vertex & vel & Hcell & Hown & Hat & Hface & Hfat
                 & Hid & Hpv & Hsmp); exists cell, face, vertex, vel;
    (do 7 (split; [done|])).
  - by apply sample_fields in Hsmp.
  - by apply sample_fields.
Qed.

(** ** Zero uplift and zero erosion rates *)






End Properties.

(** * Examples *)

(** C8, an instance. *)
Lemma first_timestep_is_skipped_witness :
  timestep_number (pole_simulator 0) = 0 /\
  compute_velocity_constraints_on_boundary (lib := still_libraries) 20
    (blank_plugin SphericalShell) (pole_simulator 0) 0 1 [] ∅ [1%N]
  = mkRun [] (Returned ∅).
Proof.
  split; [reflexivity|].
  apply (first_timestep_is_skipped (lib := still_libraries)). reflexivity.
Defined.

Lemma default_prm_same_outside_erosional (model : string) (levels : Z) (a b : double) :
  same_outside_erosional (default_prm model levels a) (default_prm model levels b).
Proof.
  intros path entry Hpath. unfold default_prm.
  cbn [prm_get prm_get_integer prm_get_double prm_get_bool].
  split; [reflexivity|]. split; [reflexivity|]. split; [|reflexivity].
  case_bool_decide as Heq; [by destruct Hpath | reflexivity].
Qed.

(** C9, an instance: every erosional parameter 1/2 against every one 7. *)
Lemma erosional_parameters_have_no_influence_witness :
  let prm := default_prm "spherical shell" 0 (1 # 2) in
  let prm' := default_prm "spherical shell" 0 7 in
  let s0 := blank_plugin OtherGeometry in
  let sim := pole_simulator 1 in
  same_outside_erosional prm prm' /\
  (configured_step (lib := still_libraries) 20 prm s0 sim 0 1 [] ∅ [1%N]
   = configured_step (lib := still_libraries) 20 prm' s0 sim 0 1 [] ∅ [1%N] /\
   (forall per_rank,
      coordinator (lib := still_libraries) 20
        (initialize (lib := still_libraries) sim
           (parse_parameters (lib := still_libraries) sim prm s0)).1
        sim per_rank
      = coordinator (lib := still_libraries) 20
          (initialize (lib := still_libraries) sim
             (parse_parameters (lib := still_libraries) sim prm' s0)).1
          sim per_rank) /\
   (forall h vz,
      evolve (lib := still_libraries) 20
        (initialize (lib := still_libraries) sim
           (parse_parameters (lib := still_libraries) sim prm s0)).1
        sim h vz
      = evolve (lib := still_libraries) 20
          (initialize (lib := still_libraries) sim
             (parse_parameters (lib := still_libraries) sim prm' s0)).1
          sim h vz)).
Proof.
  intros prm prm' s0 sim.
  split; [apply default_prm_same_outside_erosional|].
  apply (erosional_parameters_have_no_influence (lib := still_libraries)).
  apply default_prm_same_outside_erosional.
Defined.

(** C3, an instance: the plugin configured for a box, over the box of
    [box_simulator]; its member [nsides] holds 4. *)
Lemma box_sampler_is_spherical_witness :
  let sim := box_simulator 1 in
  let s := parse_parameters (lib := still_libraries) sim (default_prm "box" 0 0)
             (set_nsides (blank_plugin OtherGeometry) 4) in
  geometry_type s = Box /\
  let s' := (initialize (lib := still_libraries) sim s).1 in
  geometry_type s' = Box /\
  nsides s' = nsides s /\
  boundary_samples (lib := still_libraries) s' sim 1 0
  = boundary_samples (lib := still_libraries) s sim 1 0 /\
  forall smp : Sample,
    smp ∈ boundary_samples (lib := still_libraries) s' sim 1 0 <->
    exists (cell : Cell) (face : Face) (vertex : Point) (vel : Tensor),
      cell ∈ active_cells sim 0 /\
      c_locally_owned cell = true /\
      c_at_boundary cell = true /\
      face ∈ c_faces cell /\
      f_at_boundary face = true /\
      f_boundary_id face = top_boundary sim /\
      (vertex, vel) ∈ f_values face 1 /\
      s_height smp = (p2 vertex - outer_radius s)%Q /\
      s_index smp
      = double_of_int (vec2pix (Libraries := still_libraries) (nsides s) vertex) /\
      s_velocity smp =
        ((p0 vertex * p0 vel + p1 vertex * p1 vel + p2 vertex * p2 vel)
         / norm (Libraries := still_libraries) vertex
         * year_in_seconds (Libraries := still_libraries))%Q.
Proof.
  intros sim s.
  assert (Hbox : geometry_type s = Box) by reflexivity.
  split; [exact Hbox|].
  exact (box_sampler_is_spherical (lib := still_libraries) sim s 1 0 Hbox).
Defined.

(** The coupling step of a box plugin, evaluated.  [initialize] has set up
    a planar grid of 2 by 2 nodes with a spacing of 400 m and has left
    [nsides] at the 4 it held.  The one quadrature point on the top face,
    (300, 0, 400), where the material rises at one metre per second, gives
    one sample: its cell is the HEALPix pixel of the point at that
    [nsides], and its velocity is 4/5 of a metre per second in metres per
    year, the radial projection, not the vertical component.  The field
    that is gathered has the 192 cells of the HEALPix grid, not the 4 of
    the planar one. *)
Lemma box_run_is_sampled_radially :
  let sim := box_simulator 1 in
  let s := (initialize (lib := still_libraries) sim
              (parse_parameters (lib := still_libraries) sim (default_prm "box" 0 0)
                 (set_nsides (blank_plugin OtherGeometry) 4))).1 in
  let vertex := mkPoint 300 0 400 in
  let vel := mkPoint 0 0 1 in
  geometry_type s = Box /\
  (nx s = 2 /\ ny s = 2 /\ array_size s = 4 /\ dx s = Finite 400%Q) /\
  nsides s = 4 /\
  quadrature_copies s = Some 1 /\
  Npix (Libraries := still_libraries) (nsides s) = Some 192%nat /\
  (exists smp : Sample,
     boundary_samples (lib := still_libraries) s sim 1 0 = [smp] /\
     s_index smp
     = double_of_int (vec2pix (Libraries := still_libraries) (nsides s) vertex) /\
     (s_velocity smp == (4 # 5) * year_in_seconds (Libraries := still_libraries))%Q /\
     ~ (s_velocity smp
        == p2 vel * year_in_seconds (Libraries := still_libraries))%Q) /\
  compute_velocity_constraints_on_boundary (lib := still_libraries) 5 s sim
    0 1 [] ∅ [5%N] = mkRun [EvSample] NoReturn.
Proof.
  cbv zeta. split; [reflexivity|]. split; [by vm_compute|].
  split; [reflexivity|]. split; [by vm_compute|]. split; [by vm_compute|].
  split; [|by vm_compute].
  eexists. split; [reflexivity|]. split; [reflexivity|].
  split; by vm_compute.
Qed.


(** The default configuration on one process, first step after the
    initial one: the grid has 192 pixels, the coordinator gathers one
    sample, takes ten sub-steps and does not come to a velocity; the
    call samples and does nothing else. *)
Lemma default_run_has_no_velocity :
  let sim := pole_simulator 1 in
  let s := (initialize (lib := still_libraries) sim
              (parse_parameters (lib := still_libraries) sim
                 (default_prm "spherical shell" 0 0) (blank_plugin OtherGeometry))).1 in
  nsides s = 4 /\
  Npix (Libraries := still_libraries) (nsides s) = Some 192%nat /\
  quadrature_copies s = Some 1 /\
  coordinator (lib := still_libraries) 5 s sim
    (gathered_samples (lib := still_libraries) s sim 1 1) = NoReturn /\
  compute_velocity_constraints_on_boundary (lib := still_libraries) 5 s sim
    0 1 [] ∅ [1%N] = mkRun [EvSample] NoReturn.
Proof.
  cbv zeta. split; [by vm_compute|]. split; [by vm_compute|].
  split; [by vm_compute|]. split; by vm_compute.
Qed.
(** * Further properties *)

(** ** Sub-cycling: what the loop returns *)

Lemma halve_until_shape (fuel : nat) :
  forall (D : double) (it : Z) (dt : double) (r : Z * double),
    halve_until fuel D it dt = Some r ->
    exists k : nat,
      r = (doubled k it, halved k dt) /\
      (halved k dt <= D)%Q /\
      forall j : nat, (j < k)%nat -> (D < halved j dt)%Q.
Proof.
  induction fuel as [|fuel IH]; intros D it dt r Hr; [done|].
  cbn [halve_until] in Hr. destruct (Qlt_le_dec D dt) as [Hlt|Hle].
  - destruct (IH _ _ _ _ Hr) as (k & -> & Hfit & Hbefore).
    exists (S k). split; [|split].
    + unfold doubled, halved. by rewrite !Nat.iter_succ_r.
    + by rewrite halved_shift.
    + intros [|j] Hj; [done|]. rewrite halved_shift. apply Hbefore. lia.
  - injection Hr as <-. exists 0%nat. split; [done|]. split; [done|].
    intros j Hj. lia.
Qed.

(** X1.  Whatever the inputs, a finite duration returned by lines 193-199
    does not exceed the configured maximum. *)
Theorem sub_step_duration_bounds (fuel : nat) (T : double) (B : Z) (D : double)
    (count : Z) (dt : double) :
  sub_stepping fuel T B D = Some (count, Finite dt) -> (dt <= D)%Q.
Proof.
  unfold sub_stepping. intros Hrun.
  destruct (divide T (double_of_int (wrap_uint B))) as [dt0| | |]; [|done..].
  destruct (Qeq_bool D 0) eqn:HD; cbn [andb] in Hrun.
  - apply Qeq_bool_iff in HD.
    destruct (negb (Qle_bool dt0 0)).
    + destruct (halve_until fuel DBL_TRUE_MIN (wrap_uint B) dt0) as [r|]; [|done].
      cbn in Hrun. injection Hrun as _ <-. rewrite HD. apply Qle_refl.
    + destruct (halve_until fuel D (wrap_uint B) dt0) as [r|] eqn:Hr; [|done].
      cbn in Hrun. injection Hrun as _ <-.
      by destruct (halve_until_shape _ _ _ _ _ Hr) as (k & -> & Hfit & _).
  - destruct (halve_until fuel D (wrap_uint B) dt0) as [r|] eqn:Hr; [|done].
    cbn in Hrun. injection Hrun as _ <-.
    by destruct (halve_until_shape _ _ _ _ _ Hr) as (k & -> & Hfit & _).
Qed.

(** X1, an instance: 100 years, ten base steps, at most 3 years; two halvings. *)
Lemma sub_step_duration_bounds_witness :
  sub_stepping 5 100 10 3
  = Some (40, Finite (100 / inject_Z 10 * (1 # 2) * (1 # 2))%Q) /\
  (100 / inject_Z 10 * (1 # 2) * (1 # 2) <= 3)%Q.
Proof.
  assert (Hrun : sub_stepping 5 100 10 3
                 = Some (40, Finite (100 / inject_Z 10 * (1 # 2) * (1 # 2))%Q))
    by reflexivity.
  split; [exact Hrun|].
  exact (sub_step_duration_bounds 5 100 10 3 40 _ Hrun).
Defined.



Lemma DBL_TRUE_MIN_pos : (0 < DBL_TRUE_MIN)%Q.
Proof. by vm_compute. Qed.

Lemma Qle_bool_false (x y : Q) : (y < x)%Q -> Qle_bool x y = false.
Proof.
  intros Hlt. destruct (Qle_bool x y) eqn:E; [|done].
  apply Qle_bool_iff in E. by apply Qlt_not_le in Hlt.
Qed.

(** X19.  With a maximum duration of zero and a positive timestep the loop
    ends by underflow: it returns the duration zero.  Unless the initial
    duration is within 2^31 times the least positive double, the count
    has been doubled at least 32 times by then and is zero, so that no
    sub-step is taken. *)
Theorem zero_maximum_underflows (T : double) (B : Z) (D : double) :
  1 <= B < UINT_MODULUS -> (0 < T)%Q -> (D == 0)%Q ->
  exists (fuel : nat) (count : Z),
    sub_stepping fuel T B D = Some (count, Finite 0%Q) /\
    ((DBL_TRUE_MIN * inject_Z (2 ^ 31) < T / inject_Z B)%Q -> count = 0).
Proof.
  intros HB HT HD.
  assert (HBq : (0 < inject_Z B)%Q).
  { change 0%Q with (inject_Z 0). rewrite <- Zlt_Qlt. lia. }
  assert (Hdt : (0 < T / inject_Z B)%Q).
  { apply Qlt_shift_div_l; [done|]. by rewrite Qmult_0_l. }
  destruct (least_halving DBL_TRUE_MIN (T / inject_Z B) DBL_TRUE_MIN_pos)
    as (k & Hfit & Hbefore).
  exists (S k), (wrap_uint (doubled k B * 2)). split.
  - assert (Hwrap : wrap_uint B = B) by (apply Z.mod_small; lia).
    unfold sub_stepping. rewrite Hwrap, divide_by_count by lia.
    assert (HD' : Qeq_bool D 0 = true) by (by apply Qeq_bool_iff).
    rewrite HD', (Qle_bool_false _ _ Hdt). cbn [andb negb].
    by rewrite (halve_until_steps k (S k) DBL_TRUE_MIN B _ ltac:(lia) Hbefore Hfit).
  - intros Hfar.
    assert (Hk : (31 <= k)%nat).
    { destruct (Nat.le_gt_cases 31 k) as [|Hsmall]; [done|]. exfalso.
      pose proof (halved_value k (T / inject_Z B)) as Hval.
      pose proof (pow2_pos k) as Hpos.
      assert (Hpow : (inject_Z (2 ^ Z.of_nat k) <= inject_Z (2 ^ 31))%Q).
      { rewrite <- Zle_Qle. apply Z.pow_le_mono_r; lia. }
      assert (H1 : (T / inject_Z B <= DBL_TRUE_MIN * inject_Z (2 ^ Z.of_nat k))%Q).
      { rewrite <- Hval at 1. by apply Qmult_le_compat_r; [|apply Qlt_le_weak]. }
      assert (H2 : (DBL_TRUE_MIN * inject_Z (2 ^ Z.of_nat k)
                    <= DBL_TRUE_MIN * inject_Z (2 ^ 31))%Q).
      { rewrite !(Qmult_comm DBL_TRUE_MIN).
        apply Qmult_le_compat_r; [done|]. apply Qlt_le_weak, DBL_TRUE_MIN_pos. }
      apply (Qlt_irrefl (T / inject_Z B)).
      eapply Qle_lt_trans; [exact H1|]. eapply Qle_lt_trans; [exact H2|]. done. }
    change (wrap_uint (doubled k B * 2)) with (doubled (S k) B).
    rewrite doubled_in_range by lia. unfold wrap_uint, UINT_MODULUS.
    replace (Z.of_nat (S k)) with (32 + (Z.of_nat k - 31)) by lia.
    rewrite Z.pow_add_r by lia.
    replace (B * (2 ^ 32 * 2 ^ (Z.of_nat k - 31)))
      with (B * 2 ^ (Z.of_nat k - 31) * 2 ^ 32) by ring.
    by rewrite Z.mod_mul.
Qed.

(** X19, an instance: the default timestep of 1000 years in ten base
    steps, with the entry "Maximum timestep" set to 0. *)
Lemma zero_maximum_underflows_witness :
  1 <= 10 < UINT_MODULUS /\ (0 < 1000)%Q /\ (0 == 0)%Q /\
  exists (fuel : nat) (count : Z),
    sub_stepping fuel 1000 10 0 = Some (count, Finite 0%Q) /\
    ((DBL_TRUE_MIN * inject_Z (2 ^ 31) < 1000 / inject_Z 10)%Q -> count = 0).
Proof.
  assert (HB : 1 <= 10 < UINT_MODULUS) by (unfold UINT_MODULUS; lia).
  assert (HT : (0 < 1000)%Q) by reflexivity.
  assert (HD : (0 == 0)%Q) by reflexivity.
  split; [exact HB|]. split; [exact HT|]. split; [exact HD|].
  exact (zero_maximum_underflows 1000 10 0 HB HT HD).
Defined.

(** ** Gathering: which sample a cell keeps, and when the gathering fails *)

Lemma static_cast_int_of_int (i : Z) :
  static_cast_int (double_of_int i)
  = if decide (INT_MIN <= i <= INT_MAX) then Some i else None.
Proof.
  unfold static_cast_int, double_of_int, trunc. cbn [inject_Z Qnum Qden].
  by rewrite Z.quot_1_r.
Qed.

Lemma write_ranks_concat (per_rank : list (list Sample)) :
  forall hv, write_ranks hv per_rank = write_samples hv (concat per_rank).
Proof.
  induction per_rank as [|samples rest IH]; intros hv; [done|].
  cbn [write_ranks concat].
  revert hv. induction samples as [|smp samples IHs]; intros hv.
  - cbn. apply IH.
  - cbn [write_samples app]. destruct (write_sample hv smp) as [hv1|]; [|done].
    cbn. apply IHs.
Qed.

Lemma write_samples_in_range (samples : list Sample) :
  forall hv hv',
    length hv.2 = length hv.1 ->
    write_samples hv samples = Some hv' ->
    Forall (sample_in_range (length hv.1)) samples.
Proof.
  induction samples as [|smp rest IH]; intros hv hv' Hlen Hrun; [constructor|].
  cbn [write_samples] in Hrun.
  destruct (write_sample hv smp) as [hv1|] eqn:Hw; [|done]. cbn in Hrun.
  destruct (write_sample_length _ _ _ Hw) as [Hl1 Hl2].
  constructor.
  - unfold write_sample in Hw.
    destruct (static_cast_int (s_index smp)) as [index|] eqn:Hcast; [|done].
    cbn in Hw. unfold vector_set in Hw.
    destruct (decide (0 <= index < Z.of_nat (length hv.1))) as [Hin|]; [|done].
    by exists index.
  - rewrite <- Hl1. apply (IH hv1 hv'); [congruence | done].
Qed.

Lemma last_write_cons (i : nat) (smp : Sample) (rest : list Sample) :
  last_write i (smp :: rest)
  = match last_write i rest with
    | Some later => Some later
    | None => if decide (writes_cell i smp) then Some smp else None
    end.
Proof.
  unfold last_write. rewrite filter_cons.
  destruct (decide (writes_cell i smp)) as [Hw|Hw].
  - destruct (filter (writes_cell i) rest) as [|x l]; [done|].
    rewrite last_cons_cons. destruct (last (x :: l)) eqn:Hlast; [done|].
    by apply last_None in Hlast.
  - by destruct (last (filter (writes_cell i) rest)).
Qed.

Lemma write_sample_at (hv hv' : list double * list double) (smp : Sample) (i : nat) :
  write_sample hv smp = Some hv' ->
  writes_cell i smp ->
  hv'.1 !! i = Some (s_height smp) /\ hv'.2 !! i = Some (s_velocity smp).
Proof.
  unfold write_sample, writes_cell. intros Hw Hcell. rewrite Hcell in Hw. cbn in Hw.
  unfold vector_set in Hw.
  destruct (decide (0 <= Z.of_nat i < Z.of_nat (length hv.1))) as [H1|]; [|done].
  cbn in Hw.
  destruct (decide (0 <= Z.of_nat i < Z.of_nat (length hv.2))) as [H2|]; [|done].
  cbn in Hw. injection Hw as <-. cbn [fst snd]. rewrite Nat2Z.id.
  split; apply list_lookup_insert_eq; lia.
Qed.

Lemma write_samples_last (samples : list Sample) :
  forall hv hv' (i : nat),
    write_samples hv samples = Some hv' ->
    hv'.1 !! i = match last_write i samples with
                 | Some smp => Some (s_height smp)
                 | None => hv.1 !! i
                 end /\
    hv'.2 !! i = match last_write i samples with
                 | Some smp => Some (s_velocity smp)
                 | None => hv.2 !! i
                 end.
Proof.
  induction samples as [|smp rest IH]; intros hv hv' i Hrun.
  - cbn in Hrun. by injection Hrun as <-.
  - cbn [write_samples] in Hrun.
    destruct (write_sample hv smp) as [hv1|] eqn:Hw; [|done]. cbn in Hrun.
    destruct (IH hv1 hv' i Hrun) as [H1 H2]. rewrite H1, H2, last_write_cons.
    destruct (last_write i rest) as [later|]; [done|].
    destruct (decide (writes_cell i smp)) as [Hcell|Hcell].
    + by apply (write_sample_at hv hv1 smp).
    + by apply (write_sample_other hv hv1 smp).
Qed.

(** X3.  Within one gathering the last writer of a cell wins: each cell
    holds the height and the velocity of the last sample, in the order
    coordinator first and then rank by rank, whose index is that cell, and
    the initial values if there is none. *)
Theorem gather_last_writer_wins (size : nat) (per_rank : list (list Sample))
    (h vz : list double) (i : nat) :
  gather size per_rank = Some (h, vz) ->
  (i < size)%nat ->
  h !! i = Some (from_option s_height DBL_MAX (last_write i (concat per_rank))) /\
  vz !! i = Some (from_option s_velocity 0%Q (last_write i (concat per_rank))).
Proof.
  unfold gather. rewrite write_ranks_concat. intros Hrun Hi.
  destruct (write_samples_last _ _ _ i Hrun) as [H1 H2]. cbn [fst snd] in H1, H2.
  rewrite H1, H2. unfold xzeros.
  destruct (last_write i (concat per_rank)); [done|].
  cbn. by rewrite !lookup_replicate_2.
Qed.

(** X3, an instance: cell 1 written by the coordinator and again by rank 1. *)
Lemma gather_last_writer_wins_witness :
  let per_rank :=
    [[mkSample 5 (double_of_int 1) 7; mkSample 6 (double_of_int 0) 8];
     [mkSample 9 (double_of_int 1) 2]]%Q in
  gather 3 per_rank = Some ([6; 9; DBL_MAX], [8; 2; 0])%Q /\
  (1 < 3)%nat /\
  [6; 9; DBL_MAX]%Q !! 1%nat
  = Some (from_option s_height DBL_MAX (last_write 1 (concat per_rank))) /\
  [8; 2; 0]%Q !! 1%nat
  = Some (from_option s_velocity 0%Q (last_write 1 (concat per_rank))).
Proof.
  intros per_rank.
  assert (Hrun : gather 3 per_rank = Some ([6; 9; DBL_MAX], [8; 2; 0])%Q)
    by reflexivity.
  assert (Hi : (1 < 3)%nat) by lia.
  split; [exact Hrun|]. split; [exact Hi|].
  exact (gather_last_writer_wins 3 per_rank _ _ 1 Hrun Hi).
Defined.

(** X4.  The gathering has a result exactly when the index of every sample
    is a cell of the field; one index outside the field, from any rank,
    leaves the whole gathering without a defined result. *)
Theorem gather_defined_iff (size : nat) (per_rank : list (list Sample)) :
  is_Some (gather size per_rank) <->
  Forall (Forall (sample_in_range size)) per_rank.
Proof.
  split.
  - intros [hv Hrun]. unfold gather in Hrun. rewrite write_ranks_concat in Hrun.
    apply write_samples_in_range in Hrun.
    + cbn [fst] in Hrun. rewrite length_replicate in Hrun.
      clear hv. induction per_rank as [|samples rest IH]; [constructor|].
      cbn [concat] in Hrun. apply Forall_app in Hrun as [H1 H2].
      constructor; [done | by apply IH].
    + cbn [fst snd]. unfold xzeros. by rewrite !length_replicate.
  - intros Hrange. unfold gather.
    destruct (write_ranks_spec per_rank (replicate size DBL_MAX, xzeros size))
      as (hv' & Hrun & _).
    + cbn [fst snd]. unfold xzeros. by rewrite !length_replicate.
    + cbn [fst]. by rewrite length_replicate.
    + by exists hv'.
Qed.

Lemma pixel_index_round_trip (i : Z) :
  INT_MIN <= i <= INT_MAX ->
  static_cast_int (double_of_int i) = Some i.
Proof. intros Hi. rewrite static_cast_int_of_int. by rewrite decide_True. Qed.

Section FurtherProperties.

Context `{lib : Libraries}.

(** ** Sampling *)

(** X5.  A sample reaches the cell of its pixel: written into fields that
    contain the pixel of the vertex, the sample of a quadrature point sets
    exactly that cell, to the height above the outer radius and to the
    radial velocity in metres per year. *)
Theorem sample_writes_its_pixel (s : FastScapecc) (vertex : Point) (vel : Tensor)
    (h vz : list double) :
  let pixel := vec2pix (nsides s) vertex in
  0 <= pixel < Z.of_nat (length h) ->
  pixel <= INT_MAX ->
  length vz = length h ->
  write_sample (h, vz) (sample_corner s vertex vel)
  = Some (<[Z.to_nat pixel := (p2 vertex - outer_radius s)%Q]> h,
          <[Z.to_nat pixel :=
              ((p0 vertex * p0 vel + p1 vertex * p1 vel + p2 vertex * p2 vel)
               / norm vertex * year_in_seconds)%Q]> vz).
Proof.
  intros pixel Hin Hint Hlen. unfold write_sample, sample_corner. cbn [s_index].
  fold pixel. rewrite pixel_index_round_trip by (unfold INT_MIN; lia).
  cbn. unfold vector_set. cbn [fst snd].
  destruct (decide (0 <= pixel < Z.of_nat (length h))) as [_|]; [|lia]. cbn.
  destruct (decide (0 <= pixel < Z.of_nat (length vz))) as [_|]; [|lia]. done.
Qed.

(** X6.  The samples of a rank are exactly the quadrature points of the
    boundary faces with the indicator of the top boundary in cells that
    the rank owns and that touch the boundary; nothing else is sampled. *)
Theorem boundary_samples_origin (s : FastScapecc) (sim : Simulator) (copies : Z)
    (rank : nat) (smp : Sample) :
  smp ∈ boundary_samples s sim copies rank <->
  exists (cell : Cell) (face : Face) (vertex : Point) (vel : Tensor),
    cell ∈ active_cells sim rank /\
    c_locally_owned cell = true /\
    c_at_boundary cell = true /\
    face ∈ c_faces cell /\
    f_at_boundary face = true /\
    f_boundary_id face = top_boundary sim /\
    (vertex, vel) ∈ f_values face copies /\
    smp = sample_corner s vertex vel.
Proof.
  split.
  - intros Hin. by apply boundary_samples_elem in Hin.
  - intros (cell & face & vertex & vel & Hcell & Hown & Hat & Hface & Hfat & Hid
            & Hpv & Hsmp).
    apply boundary_samples_elem. by exists cell, face, vertex, vel.
Qed.

(** ** The data table *)

Lemma mapM_seq_lookup {B : Type} (f : nat -> option B) (n : nat) (l : list B) :
  mapM f (seq 0 n) = Some l ->
  length l = n /\ forall j : nat, (j < n)%nat -> l !! j = f j.
Proof.
  intros Hl. apply mapM_Some in Hl.
  pose proof (Forall2_length _ _ _ Hl) as Hlen. rewrite length_seq in Hlen.
  split; [done|]. intros j Hj.
  destruct (Forall2_lookup_l _ _ _ j j Hl (lookup_seq_lt 0 n j Hj)) as (y & Hy & Hf).
  cbn in Hf. congruence.
Qed.

Lemma mapM_seq_is_Some {B : Type} (f : nat -> option B) (n : nat) :
  is_Some (mapM f (seq 0 n)) <-> forall j : nat, (j < n)%nat -> is_Some (f j).
Proof.
  rewrite mapM_is_Some, Forall_forall. split.
  - intros H j Hj. apply (H j). apply elem_of_seq. lia.
  - intros H j Hj. apply elem_of_seq in Hj. apply H. lia.
Qed.

Lemma table_entry_lookup (values : list double) (array_size : Z) (i j : nat) :
  table_entry values array_size i j
  = (v ← values !! Z.to_nat (wrap_uint (array_size * Z.of_nat i + Z.of_nat j));
     Some (v / year_in_seconds)%Q).
Proof.
  unfold table_entry, vector_get.
  assert (Hnn : 0 <= wrap_uint (array_size * Z.of_nat i + Z.of_nat j))
    by (apply Z.mod_pos_bound; done).
  by destruct (decide (0 <= wrap_uint (array_size * Z.of_nat i + Z.of_nat j))).
Qed.

(** X8.  The table that [fill_data_table] returns has the requested sizes
    in its entries: the entry at [(j, i, k)] is the value at position
    [array_size * i + j], reduced modulo 2^32, divided by the seconds of a
    year; it does not depend on [k], so all layers are equal. *)
Theorem fill_data_table_entries (values : list double) (n0 n1 n2 : nat)
    (array_size : Z) (t : Table3) (j i k : nat) :
  fill_data_table values (n0, n1, n2) array_size = Some t ->
  (j < n0)%nat -> (i < n1)%nat -> (k < n2)%nat ->
  exists v : double,
    values !! Z.to_nat (wrap_uint (array_size * Z.of_nat i + Z.of_nat j)) = Some v /\
    table_at t j i k = Some (v / year_in_seconds)%Q /\
    forall k' : nat, (k' < n2)%nat -> table_at t j i k' = table_at t j i k.
Proof.
  intros Hfill Hj Hi Hk. unfold fill_data_table in Hfill.
  destruct (mapM_seq_lookup _ _ _ Hfill) as [_ Hlayers].
  assert (Hat : forall k0 : nat, (k0 < n2)%nat ->
                  table_at t j i k0 = table_entry values array_size i j).
  { intros k0 Hk0. unfold table_at.
    pose proof (Hlayers k0 Hk0) as Hlayer.
    destruct (mapM (fun i0 : nat =>
                      mapM (fun j0 : nat => table_entry values array_size i0 j0)
                           (seq 0 n0)) (seq 0 n1)) as [layer|] eqn:Hl.
    - rewrite Hlayer. cbn.
      destruct (mapM_seq_lookup _ _ _ Hl) as [_ Hrows].
      pose proof (Hrows i Hi) as Hrow.
      destruct (mapM (fun j0 : nat => table_entry values array_size i j0) (seq 0 n0))
        as [row|] eqn:Hr.
      + rewrite Hrow. cbn. by apply (mapM_seq_lookup _ _ _ Hr).
      + apply mapM_seq_lookup in Hl as [Hlen _].
        assert (is_Some (layer !! i)) as [x Hx] by (apply lookup_lt_is_Some; lia).
        congruence.
    - destruct (mapM_seq_lookup _ _ _ Hfill) as [Hlen _].
      assert (is_Some (t !! k0)) as [x Hx] by (apply lookup_lt_is_Some; lia).
      congruence. }
  assert (Hsome : is_Some (table_at t j i k)).
  { unfold table_at.
    destruct (mapM_seq_lookup _ _ _ Hfill) as [Hlen _].
    assert (is_Some (t !! k)) as [layer Hlayer] by (apply lookup_lt_is_Some; lia).
    rewrite Hlayer. cbn. rewrite (Hlayers k Hk) in Hlayer.
    destruct (mapM_seq_lookup _ _ _ Hlayer) as [Hlen1 Hrows].
    assert (is_Some (layer !! i)) as [row Hrow] by (apply lookup_lt_is_Some; lia).
    rewrite Hrow. cbn. rewrite (Hrows i Hi) in Hrow.
    destruct (mapM_seq_lookup _ _ _ Hrow) as [Hlen0 _].
    apply lookup_lt_is_Some. lia. }
  rewrite (Hat k Hk) in Hsome |- *. destruct Hsome as [x Hx].
  rewrite table_entry_lookup in Hx |- *.
  destruct (values !! Z.to_nat (wrap_uint (array_size * Z.of_nat i + Z.of_nat j)))
    as [v|] eqn:Hv; [|done].
  exists v. split; [done|]. split; [done|].
  intros k' Hk'. by rewrite (Hat k' Hk'), table_entry_lookup, Hv.
Qed.

(** X9.  [fill_data_table] has a result exactly when the table has no layer
    or every position [array_size * i + j] it reads, reduced modulo 2^32,
    lies inside [values]; otherwise a read is outside the vector. *)
Theorem fill_data_table_defined_iff (values : list double) (n0 n1 n2 : nat)
    (array_size : Z) :
  is_Some (fill_data_table values (n0, n1, n2) array_size) <->
  (n2 = 0%nat \/
   forall i j : nat, (i < n1)%nat -> (j < n0)%nat ->
     wrap_uint (array_size * Z.of_nat i + Z.of_nat j) < Z.of_nat (length values)).
Proof.
  unfold fill_data_table. rewrite mapM_seq_is_Some.
  assert (Hentry : forall i j : nat,
             is_Some (table_entry values array_size i j) <->
             wrap_uint (array_size * Z.of_nat i + Z.of_nat j)
             < Z.of_nat (length values)).
  { intros i j. rewrite table_entry_lookup.
    assert (Hnn : 0 <= wrap_uint (array_size * Z.of_nat i + Z.of_nat j))
      by (apply Z.mod_pos_bound; done).
    destruct (values !! Z.to_nat (wrap_uint (array_size * Z.of_nat i + Z.of_nat j)))
      as [v|] eqn:Hv; cbn.
    - apply lookup_lt_Some in Hv. split; [lia | eauto].
    - apply lookup_ge_None in Hv. split; [by intros [? ?] | lia]. }
  split.
  - intros Hall. destruct n2 as [|n2]; [by left|]. right.
    intros i j Hi Hj. apply Hentry.
    specialize (Hall 0%nat ltac:(lia)).
    rewrite mapM_seq_is_Some in Hall. specialize (Hall i Hi).
    rewrite mapM_seq_is_Some in Hall. by apply Hall.
  - intros [->|Hall] k Hk; [lia|].
    apply mapM_seq_is_Some. intros i Hi.
    apply mapM_seq_is_Some. intros j Hj. apply Hentry. by apply Hall.
Qed.

End FurtherProperties.

(** ** Boundary interpolation: the values imposed *)

Lemma interpolate_keeps (b : boundary_id) (f : Point -> nat -> option double)
    (dh : DoFHandler) :
  forall (cs cs' : AffineConstraints) (i : N) (v : double),
    interpolate_boundary_values dh b f cs = Some cs' ->
    cs !! i = Some v ->
    cs' !! i = Some v.
Proof.
  unfold interpolate_boundary_values.
  induction dh as [|d dh IH]; intros cs cs' i v Hrun Hi.
  - cbn in Hrun. by injection Hrun as <-.
  - cbn [foldl] in Hrun.
    destruct (constrain_dof b f (Some cs) d) as [cs1|] eqn:Hd;
      [|by rewrite constrain_dof_none in Hrun].
    apply (IH cs1 cs' i v Hrun).
    unfold constrain_dof in Hd. cbn in Hd.
    destruct (decide (b ∈ dof_boundaries d)); [|by injection Hd as <-].
    destruct (cs !! dof_index d) eqn:Hc; [by injection Hd as <-|].
    destruct (f (dof_point d) (dof_component d)) as [w|]; [|done].
    cbn in Hd. injection Hd as <-.
    rewrite lookup_insert_ne; [done|]. intros Heq. congruence.
Qed.

Lemma interpolate_sets (b : boundary_id) (f : Point -> nat -> option double)
    (dh : DoFHandler) :
  forall (cs cs' : AffineConstraints) (d : BoundaryDoF),
    NoDup (dof_index <$> dh) ->
    interpolate_boundary_values dh b f cs = Some cs' ->
    d ∈ dh ->
    b ∈ dof_boundaries d ->
    cs !! dof_index d = None ->
    exists v : double,
      f (dof_point d) (dof_component d) = Some v /\ cs' !! dof_index d = Some v.
Proof.
  induction dh as [|d0 dh IH]; intros cs cs' d Hnodup Hrun Hin Hon Hfree.
  - by apply elem_of_nil in Hin.
  - rewrite fmap_cons in Hnodup. apply NoDup_cons in Hnodup as [Hfresh Hnodup].
    unfold interpolate_boundary_values in Hrun. cbn [foldl] in Hrun.
    destruct (constrain_dof b f (Some cs) d0) as [cs1|] eqn:Hd;
      [|by rewrite constrain_dof_none in Hrun].
    apply elem_of_cons in Hin as [->|Hin].
    + unfold constrain_dof in Hd. cbn in Hd.
      rewrite decide_True in Hd by done. rewrite Hfree in Hd.
      destruct (f (dof_point d0) (dof_component d0)) as [v|]; [|done].
      cbn in Hd. injection Hd as <-. exists v. split; [done|].
      apply (interpolate_keeps b f dh _ cs' _ v Hrun). apply lookup_insert_eq.
    + apply (IH cs1 cs' d Hnodup Hrun Hin Hon).
      assert (Hne : dof_index d0 <> dof_index d).
      { intros Heq. apply Hfresh. rewrite Heq. apply list_elem_of_fmap. eauto. }
      unfold constrain_dof in Hd. cbn in Hd.
      destruct (decide (b ∈ dof_boundaries d0)); [|by injection Hd as <-].
      destruct (cs !! dof_index d0) eqn:Hc; [by injection Hd as <-|].
      destruct (f (dof_point d0) (dof_component d0)) as [w|]; [|done].
      cbn in Hd. injection Hd as <-. by rewrite lookup_insert_ne.
Qed.

Section Interpolation.

Context `{lib : Libraries}.

(** X10.  When the interpolation returns, a degree of freedom on the first
    boundary of the set that was free before is constrained to the grid
    velocity of the pixel of its support point if it is the vertical
    component (component 2), and to zero if it is a tangential one. *)
Theorem imposed_values (s : FastScapecc) (V : list double) (dh : DoFHandler)
    (cs cs' : AffineConstraints) (boundary_ids : list boundary_id)
    (b : boundary_id) :
  NoDup (dof_index <$> dh) ->
  set_begin boundary_ids = Some b ->
  impose_constraints s V dh cs boundary_ids = Returned cs' ->
  forall d : BoundaryDoF,
    d ∈ dh -> b ∈ dof_boundaries d -> cs !! dof_index d = None ->
    if decide (dof_component d = 2%nat)
    then exists v : double,
           V !! Z.to_nat (vec2pix (nsides s) (dof_point d)) = Some v /\
           0 <= vec2pix (nsides s) (dof_point d) /\
           cs' !! dof_index d = Some v
    else cs' !! dof_index d = Some 0%Q.
Proof.
  intros Hnodup Hb Hrun. unfold impose_constraints in Hrun. rewrite Hb in Hrun.
  cbn in Hrun.
  destruct (interpolate_boundary_values dh b
              (vector_function_object (healpix_velocity_function s V)) cs)
    as [cs1|] eqn:Hint; [|done].
  cbn in Hrun. injection Hrun as <-.
  intros d Hin Hon Hfree.
  destruct (interpolate_sets _ _ _ _ _ d Hnodup Hint Hin Hon Hfree) as (v & Hv & Hcs).
  unfold vector_function_object in Hv.
  destruct (decide (dof_component d = 2%nat)) as [Hc|Hc].
  - unfold healpix_velocity_function, vector_get in Hv.
    destruct (decide (0 <= vec2pix (nsides s) (dof_point d))) as [Hnn|]; [|done].
    by exists v.
  - injection Hv as <-. done.
Qed.

(** ** Messages *)

Lemma compute_trace_events (fuel : nat) (s : FastScapecc) (sim : Simulator)
    (rank n_processes : nat) (dh : DoFHandler) (cs : AffineConstraints)
    (boundary_ids : list boundary_id) (e : Event) :
  e ∈ trace (compute_velocity_constraints_on_boundary fuel s sim rank n_processes
               dh cs boundary_ids) ->
  e = EvSample \/
  exists copies : Z, e ∈ (gather_events s sim copies rank n_processes).1.
Proof.
  intros He. destruct (decide (timestep_number sim = 0)) as [Hzero|Hstep].
  - unfold compute_velocity_constraints_on_boundary in He.
    rewrite decide_True in He by done. by apply elem_of_nil in He.
  - destruct (compute_later_timestep fuel s sim rank n_processes dh cs boundary_ids
                Hstep) as [_ [Htrace|(copies & _ & Htrace)]];
      rewrite Htrace in He; [by apply elem_of_nil in He|].
    apply elem_of_cons in He as [He|He]; [by left|]. right. by exists copies.
Qed.

(** X11.  Whatever the call does, the roles in the gathering are kept: a
    rank other than 0 never probes or receives, rank 0 never sends, and
    rank 0 probes and receives only from the ranks 1 to [n_processes - 1]. *)
Theorem gathering_roles (fuel : nat) (s : FastScapecc) (sim : Simulator)
    (rank n_processes : nat) (dh : DoFHandler) (cs : AffineConstraints)
    (boundary_ids : list boundary_id) :
  let run := compute_velocity_constraints_on_boundary fuel s sim rank n_processes
               dh cs boundary_ids in
  (rank <> 0%nat ->
   forall p i : nat, (EvProbe p ∉ trace run) /\ (EvRecv p i ∉ trace run)) /\
  (rank = 0%nat ->
   (forall i count : nat, EvSsend i count ∉ trace run) /\
   forall p : nat,
     (EvProbe p ∈ trace run) \/ (exists i : nat, EvRecv p i ∈ trace run) ->
     (1 <= p < n_processes)%nat).
Proof.
  intros run. subst run. split.
  - intros Hrank p i.
    split; intros He; apply compute_trace_events in He as [H|[copies H]];
      try done; by apply gather_events_other in H as (j & count & ?).
  - intros ->. split.
    + intros i count He. apply compute_trace_events in He as [H|[copies H]];
        [done|].
      by apply gather_events_coordinator in H as (p & _ & [?|[j ?]]).
    + intros p [He|[i He]];
        apply compute_trace_events in He as [H|[copies H]]; try done;
        apply gather_events_coordinator in H as (q & Hq & [H|[j H]]); try done;
        injection H as ->; done.
Qed.



End Interpolation.
(** ** Quadrature *)

Lemma trunc_of_integer (q : double) (z : Z) :
  (q == inject_Z z)%Q -> trunc q = z.
Proof.
  unfold trunc, Qeq. cbn. rewrite Z.mul_1_r. intros ->.
  apply Z.quot_mul. done.
Qed.

(** X12.  The number of copies of the trapezoid rule is 2 to the number of
    additional refinement levels plus the refinement difference when that
    sum is between 0 and 31.  From 32 on the power is not an
    [unsigned int] and the conversion of line 106 has no defined result. *)
Theorem quadrature_copies_value (s : FastScapecc) :
  let e := additional_refinement_levels s + surface_refinement_difference s in
  (0 <= e <= 31 -> quadrature_copies s = Some (2 ^ e)) /\
  (32 <= e -> quadrature_copies s = None).
Proof.
  intros e. unfold quadrature_copies, static_cast_uint, pow2. fold e.
  assert (Hpow : 0 <= e -> trunc (2 ^ e)%Q = 2 ^ e).
  { intros He. apply trunc_of_integer. rewrite Zpower_Qpower by done. reflexivity. }
  split; intros He; rewrite Hpow by lia; unfold UINT_MODULUS.
  - rewrite decide_True; [done|]. split; [lia|]. apply Z.pow_lt_mono_r; lia.
  - rewrite decide_False; [done|]. intros [_ Hlt].
    pose proof (Z.pow_le_mono_r 2 32 e ltac:(lia) ltac:(lia)). lia.
Qed.

(** ** Initialization *)

Section Repetition.

Context `{lib : Libraries}.

Lemma set_box_grid_again (s s' : FastScapecc) (origin extents : Point) :
  set_box_grid s origin extents = Some s' ->
  geometry_type s' = geometry_type s /\ set_box_grid s' origin extents = Some s'.
Proof.
  unfold set_box_grid. intros Hset.
  destruct (member_int (fst (fst (repetitions s)) + 1)) as [nx'|] eqn:Hx; [|done].
  destruct (member_int (snd (fst (repetitions s)) + 1)) as [ny'|] eqn:Hy; [|done].
  cbn [mbind option_bind] in Hset.
  destruct (member_int (nx' * ny')) as [array_size'|] eqn:Ha; [|done].
  cbn [mbind option_bind] in Hset. injection Hset as <-.
  cbn [geometry_type repetitions]. split; [done|].
  rewrite Hx, Hy. cbn [mbind option_bind]. rewrite Ha. done.
Qed.

(** X14.  Initializing an initialized plugin changes nothing: the second
    call ends as the first and leaves the object as the first left it. *)
Theorem initialize_idempotent (sim : Simulator) (s : FastScapecc) :
  initialize sim (initialize sim s).1 = initialize sim s.
Proof.
  unfold initialize at 2 3.
  destruct (geometry_type s) eqn:Hg.
  - destruct (as_box (geometry_model sim)) as [[origin extents]|] eqn:Hbox; cbn [fst].
    + destruct (set_box_grid s origin extents) as [s'|] eqn:Hset; cbn [fst].
      * destruct (set_box_grid_again s s' origin extents Hset) as [Hg' Hset'].
        unfold initialize. by rewrite Hg', Hg, Hbox, Hset'.
      * unfold initialize. by rewrite Hg, Hbox, Hset.
    + unfold initialize. by rewrite Hg, Hbox.
  - destruct (trunc_sqrt (nsides_radicand s)) as [v|] eqn:Hroot; cbn [fst].
    + unfold initialize. cbn [set_nsides geometry_type].
      change (nsides_radicand (set_nsides s v)) with (nsides_radicand s).
      by rewrite Hg, Hroot.
    + unfold initialize. by rewrite Hg, Hroot.
  - cbn [fst]. unfold initialize. by rewrite Hg.
Qed.

End Repetition.

Section Configuration.

Context `{lib : Libraries}.

(** X15.  A model name other than "box" and "spherical shell" leaves the
    geometry type of the plugin as it was; when that is neither of the
    two supported types, setup throws and no coupling step is run. *)
Theorem unsupported_model_is_rejected (fuel : nat) (prm : ParameterHandler)
    (s0 : FastScapecc) (sim : Simulator) (rank n_processes : nat) (dh : DoFHandler)
    (cs : AffineConstraints) (boundary_ids : list boundary_id) :
  prm_get prm geometry_section "Model name" <> "box"%string ->
  prm_get prm geometry_section "Model name" <> "spherical shell"%string ->
  geometry_type s0 = OtherGeometry ->
  geometry_type (parse_parameters sim prm s0) = OtherGeometry /\
  configured_step fuel prm s0 sim rank n_processes dh cs boundary_ids
  = (Threw exc_geometry, None).
Proof.
  intros Hbox Hshell Hg.
  assert (Hparsed : geometry_type (parse_parameters sim prm s0) = OtherGeometry).
  { unfold parse_parameters. cbn [geometry_type].
    by rewrite !bool_decide_eq_false_2. }
  split; [done|]. unfold configured_step, initialize. by rewrite Hparsed.
Qed.

Lemma parse_reads_only (sim : Simulator) (prm prm' : ParameterHandler)
    (s : FastScapecc) :
  same_at parsed_entries prm prm' ->
  parse_parameters sim prm s = parse_parameters sim prm' s.
Proof.
  intros Hsame.
  assert (Hin : forall path entry,
             bool_decide ((path, entry) ∈ parsed_entries) = true ->
             prm_get prm path entry = prm_get prm' path entry /\
             prm_get_integer prm path entry = prm_get_integer prm' path entry /\
             prm_get_double prm path entry = prm_get_double prm' path entry /\
             prm_get_bool prm path entry = prm_get_bool prm' path entry).
  { intros path entry H. apply bool_decide_eq_true in H. by apply Hsame. }
  unfold parse_parameters.
  rewrite (proj1 (Hin geometry_section "Model name"%string eq_refl)).
  rewrite (proj1 (proj2 (Hin ["Geometry model"; "Box"]%string "X repetitions"%string eq_refl))).
  rewrite (proj1 (proj2 (Hin ["Geometry model"; "Box"]%string "Y repetitions"%string eq_refl))).
  rewrite (proj1 (proj2 (Hin ["Geometry model"; "Box"]%string "Z repetitions"%string eq_refl))).
  rewrite (proj1 (proj2 (proj2 (Hin [] "End time"%string eq_refl)))).
  rewrite (proj2 (proj2 (proj2 (Hin [] "Use years in output instead of seconds"%string eq_refl)))).
  rewrite (proj1 (proj2 (proj2 (Hin ["Geometry model"; "Spherical shell"]%string "Inner radius"%string eq_refl)))).
  rewrite (proj1 (proj2 (proj2 (Hin ["Geometry model"; "Spherical shell"]%string "Outer radius"%string eq_refl)))).
  rewrite (proj1 (proj2 (proj2 (Hin ["Geometry model"; "Spherical shell"]%string "Opening angle"%string eq_refl)))).
  rewrite (proj1 (proj2 (Hin fastscapecc_section "Number of steps"%string eq_refl))).
  rewrite (proj1 (proj2 (proj2 (Hin fastscapecc_section "Maximum timestep"%string eq_refl)))).
  rewrite (proj1 (proj2 (Hin fastscapecc_section "Additional fastscape refinement levels"%string eq_refl))).
  rewrite (proj2 (proj2 (proj2 (Hin fastscapecc_section "Use center slice for 2d"%string eq_refl)))).
  rewrite (proj1 (proj2 (Hin fastscapecc_section "Fastscape seed"%string eq_refl))).
  rewrite (proj1 (proj2 (Hin fastscapecc_section "Maximum surface refinement level"%string eq_refl))).
  rewrite (proj1 (proj2 (Hin fastscapecc_section "Surface refinement difference"%string eq_refl))).
  rewrite (proj1 (proj2 (proj2 (Hin fastscapecc_section "Y extent in 2d"%string eq_refl)))).
  rewrite (proj1 (proj2 (proj2 (Hin fastscapecc_section "Precision"%string eq_refl)))).
  rewrite (proj1 (proj2 (proj2 (Hin fastscapecc_section "Initial noise magnitude"%string eq_refl)))).
  rewrite (proj1 (proj2 (Hin boundary_section "Front"%string eq_refl))).
  rewrite (proj1 (proj2 (Hin boundary_section "Right"%string eq_refl))).
  rewrite (proj1 (proj2 (Hin boundary_section "Back"%string eq_refl))).
  rewrite (proj1 (proj2 (Hin boundary_section "Left"%string eq_refl))).
  rewrite (proj1 (proj2 (proj2 (Hin erosional_section "Drainage area exponent"%string eq_refl)))).
  rewrite (proj1 (proj2 (proj2 (Hin erosional_section "Slope exponent"%string eq_refl)))).
  rewrite (proj1 (proj2 (proj2 (Hin erosional_section "Sediment river incision rate"%string eq_refl)))).
  rewrite (proj1 (proj2 (proj2 (Hin erosional_section "Bedrock river incision rate"%string eq_refl)))).
  rewrite (proj1 (proj2 (proj2 (Hin erosional_section "Sediment diffusivity"%string eq_refl)))).
  rewrite (proj1 (proj2 (proj2 (Hin erosional_section "Bedrock diffusivity"%string eq_refl)))).
  reflexivity.
Qed.


Lemma parsed_entries_declared :
  Forall (fun e => e ∈ declared_entries ++ host_entries) parsed_entries.
Proof. refine (bool_decide_unpack _ _). by vm_compute. Qed.

Lemma parsed_entries_not_ignored :
  Forall (fun e => e ∉ ignored_entries) parsed_entries.
Proof. refine (bool_decide_unpack _ _). by vm_compute. Qed.

(** X16.  [parse_parameters] reads nothing that is not declared: two
    parameter files with the same values at the entries that
    [declare_parameters] declares and at the six entries of the host and of
    the box model configure the plugin alike. *)
Theorem parse_reads_declared_entries (sim : Simulator) (prm prm' : ParameterHandler)
    (s : FastScapecc) :
  same_at (declared_entries ++ host_entries) prm prm' ->
  parse_parameters sim prm s = parse_parameters sim prm' s.
Proof.
  intros Hsame. apply parse_reads_only. intros path entry Hin. apply Hsame.
  pose proof parsed_entries_declared as Hall. rewrite Forall_forall in Hall.
  by apply (Hall (path, entry)).
Qed.

(** X17.  The entries "Use velocities" and "Elevation factor" are declared
    and never read: two parameter files that differ only there configure
    the plugin alike. *)
Theorem declared_entries_never_read (sim : Simulator) (prm prm' : ParameterHandler)
    (s : FastScapecc) :
  same_outside ignored_entries prm prm' ->
  Forall (fun e => e ∈ declared_entries) ignored_entries /\
  parse_parameters sim prm s = parse_parameters sim prm' s.
Proof.
  intros Hsame. split.
  - refine (bool_decide_unpack _ _). by vm_compute.
  - apply parse_reads_only. intros path entry Hin. apply Hsame.
    pose proof parsed_entries_not_ignored as Hall. rewrite Forall_forall in Hall.
    by apply (Hall (path, entry)).
Qed.

End Configuration.

(** ** Instances *)

(** X5, an instance: a sample at the north pole, pixel 0 of two cells. *)
Lemma sample_writes_its_pixel_witness :
  let s := blank_plugin SphericalShell in
  let vertex := mkPoint 0 0 6336000 in
  let vel := mkPoint 1 0 2 in
  let h := [DBL_MAX; DBL_MAX]%Q in
  let vz := [0; 0]%Q in
  let pixel := vec2pix (Libraries := still_libraries) (nsides s) vertex in
  0 <= pixel < Z.of_nat (length h) /\
  pixel <= INT_MAX /\
  length vz = length h /\
  write_sample (h, vz) (sample_corner (lib := still_libraries) s vertex vel)
  = Some (<[Z.to_nat pixel := (p2 vertex - outer_radius s)%Q]> h,
          <[Z.to_nat pixel :=
              ((p0 vertex * p0 vel + p1 vertex * p1 vel + p2 vertex * p2 vel)
               / norm (Libraries := still_libraries) vertex
               * year_in_seconds (Libraries := still_libraries))%Q]> vz).
Proof.
  intros s vertex vel h vz pixel.
  assert (H1 : 0 <= pixel < Z.of_nat (length h)) by (by vm_compute).
  assert (H2 : pixel <= INT_MAX) by (by vm_compute).
  assert (H3 : length vz = length h) by reflexivity.
  split; [exact H1|]. split; [exact H2|]. split; [exact H3|].
  exact (sample_writes_its_pixel (lib := still_libraries) s vertex vel h vz H1 H2 H3).
Defined.

(** X8, an instance: a table of 2 by 2 by 2 from four values. *)
Lemma fill_data_table_entries_witness :
  let values := [2; 4; 6; 8]%Q in
  let t := [[[2 / 31556952; 4 / 31556952]; [6 / 31556952; 8 / 31556952]];
            [[2 / 31556952; 4 / 31556952]; [6 / 31556952; 8 / 31556952]]]%Q in
  fill_data_table (lib := still_libraries) values (2, 2, 2)%nat 2 = Some t /\
  (1 < 2)%nat /\ (1 < 2)%nat /\ (0 < 2)%nat /\
  exists v : double,
    values !! Z.to_nat (wrap_uint (2 * Z.of_nat 1 + Z.of_nat 1)) = Some v /\
    table_at t 1 1 0 = Some (v / year_in_seconds (Libraries := still_libraries))%Q /\
    forall k' : nat, (k' < 2)%nat -> table_at t 1 1 k' = table_at t 1 1 0.
Proof.
  intros values t.
  assert (Hfill : fill_data_table (lib := still_libraries) values (2, 2, 2)%nat 2
                  = Some t) by reflexivity.
  assert (H1 : (1 < 2)%nat) by lia.
  assert (H0 : (0 < 2)%nat) by lia.
  split; [exact Hfill|]. split; [exact H1|]. split; [exact H1|]. split; [exact H0|].
  exact (fill_data_table_entries (lib := still_libraries) values 2 2 2 2 t 1 1 0
           Hfill H1 H1 H0).
Defined.

(** X10, an instance: two degrees of freedom on boundary 1 and one on boundary 4. *)
Lemma imposed_values_witness :
  let s := blank_plugin SphericalShell in
  let V := [9]%Q in
  let dh := [mkDoF 1 [1%N] (mkPoint 0 0 1) 0; mkDoF 2 [1%N] (mkPoint 0 0 1) 2;
             mkDoF 3 [4%N] (mkPoint 1 0 0) 2]%Q in
  let cs : AffineConstraints := ∅ in
  let cs' : AffineConstraints := <[2%N := 9%Q]> (<[1%N := 0%Q]> ∅) in
  let b := 1%N in
  NoDup (dof_index <$> dh) /\
  set_begin [1%N; 4%N] = Some b /\
  impose_constraints (lib := still_libraries) s V dh cs [1%N; 4%N] = Returned cs' /\
  forall d : BoundaryDoF,
    d ∈ dh -> b ∈ dof_boundaries d -> cs !! dof_index d = None ->
    if decide (dof_component d = 2%nat)
    then exists v : double,
           V !! Z.to_nat (vec2pix (Libraries := still_libraries) (nsides s) (dof_point d))
           = Some v /\
           0 <= vec2pix (Libraries := still_libraries) (nsides s) (dof_point d) /\
           cs' !! dof_index d = Some v
    else cs' !! dof_index d = Some 0%Q.
Proof.
  intros s V dh cs cs' b.
  assert (Hnodup : NoDup (dof_index <$> dh)).
  { refine (bool_decide_unpack _ _). by vm_compute. }
  assert (Hb : set_begin [1%N; 4%N] = Some b) by reflexivity.
  assert (Hrun : impose_constraints (lib := still_libraries) s V dh cs [1%N; 4%N]
                 = Returned cs') by reflexivity.
  split; [exact Hnodup|]. split; [exact Hb|]. split; [exact Hrun|].
  exact (imposed_values (lib := still_libraries) s V dh cs cs' [1%N; 4%N] b
           Hnodup Hb Hrun).
Defined.

(** X15, an instance: the model name chunk. *)
Lemma unsupported_model_is_rejected_witness :
  let prm := default_prm "chunk" 0 0 in
  let s0 := blank_plugin OtherGeometry in
  let sim := pole_simulator 1 in
  prm_get prm geometry_section "Model name" <> "box"%string /\
  prm_get prm geometry_section "Model name" <> "spherical shell"%string /\
  geometry_type s0 = OtherGeometry /\
  geometry_type (parse_parameters (lib := still_libraries) sim prm s0) = OtherGeometry /\
  configured_step (lib := still_libraries) 20 prm s0 sim 0 1 [] ∅ [1%N]
  = (Threw exc_geometry, None).
Proof.
  intros prm s0 sim.
  assert (H1 : prm_get prm geometry_section "Model name" <> "box"%string) by done.
  assert (H2 : prm_get prm geometry_section "Model name" <> "spherical shell"%string)
    by done.
  assert (H3 : geometry_type s0 = OtherGeometry) by reflexivity.
  split; [exact H1|]. split; [exact H2|]. split; [exact H3|].
  exact (unsupported_model_is_rejected (lib := still_libraries) 20 prm s0 sim 0 1 []
           ∅ [1%N] H1 H2 H3).
Defined.

Lemma other_prm_same_at_declared :
  same_at (declared_entries ++ host_entries)
          (default_prm "spherical shell" 0 0) other_prm.
Proof.
  intros path entry Hin.
  assert (Hentry : entry <> "Unrelated"%string).
  { intros ->. apply (list_elem_of_fmap_2 snd) in Hin. cbn [snd] in Hin.
    revert Hin. refine (bool_decide_unpack _ _). by vm_compute. }
  unfold other_prm. cbn [prm_get prm_get_integer prm_get_double prm_get_bool].
  rewrite bool_decide_eq_false_2 by done. done.
Qed.

(** X16, an instance: the defaults, and the defaults with an unrelated entry. *)
Lemma parse_reads_declared_entries_witness :
  let sim := pole_simulator 1 in
  let s := blank_plugin OtherGeometry in
  same_at (declared_entries ++ host_entries)
          (default_prm "spherical shell" 0 0) other_prm /\
  parse_parameters (lib := still_libraries) sim (default_prm "spherical shell" 0 0) s
  = parse_parameters (lib := still_libraries) sim other_prm s.
Proof.
  intros sim s. split; [exact other_prm_same_at_declared|].
  exact (parse_reads_declared_entries (lib := still_libraries) sim _ _ s
           other_prm_same_at_declared).
Defined.

Lemma ignoring_prm_same_outside_ignored :
  same_outside ignored_entries (default_prm "spherical shell" 0 0) ignoring_prm.
Proof.
  intros path entry Hout.
  unfold ignoring_prm. cbn [prm_get prm_get_integer prm_get_double prm_get_bool].
  unfold ignored_entries in Hout.
  rewrite !bool_decide_eq_false_2; [done| |].
  - intros Heq. apply Hout. rewrite Heq. apply list_elem_of_here.
  - intros Heq. apply Hout. rewrite Heq. apply list_elem_of_further, list_elem_of_here.
Qed.

(** X17, an instance: the defaults, and other values at the two entries. *)
Lemma declared_entries_never_read_witness :
  let sim := pole_simulator 1 in
  let s := blank_plugin OtherGeometry in
  same_outside ignored_entries (default_prm "spherical shell" 0 0) ignoring_prm /\
  Forall (fun e => e ∈ declared_entries) ignored_entries /\
  parse_parameters (lib := still_libraries) sim (default_prm "spherical shell" 0 0) s
  = parse_parameters (lib := still_libraries) sim ignoring_prm s.
Proof.
  intros sim s. split; [exact ignoring_prm_same_outside_ignored|].
  exact (declared_entries_never_read (lib := still_libraries) sim _ _ s
           ignoring_prm_same_outside_ignored).
Defined.


